(** * WaveSpeed JavaScript client: transport layer and job lifecycle

    A shallow embedding of [src/index.ts]: the [Prediction] class
    ([wait], [reload]) and the [WaveSpeed] client (constructor,
    [fetchWithTimeout], [_getBackoffTime], [create], [run], [upload]).

    Conventions of the embedding.
    - A JavaScript [number] carried by the machine (a timeout, a poll
      interval, the delay of a sleep) is a rational ([Q]): the real
      number its formula denotes.  HTTP status codes are integers ([Z]).
      The arithmetic of [_getBackoffTime] is also modelled as the code
      runs it, in IEEE binary64 with round-to-nearest-even
      ([double_backoffTime]); there a number that is not finite
      (an infinity or NaN) is [None].
    - An optional property of an options object that the code spreads
      over defaults ([method], [body]) has three states: absent,
      present with the value [undefined], present with a value.
    - Values of type [any] coming from a JSON body are [JsVal]s; objects
      are finite maps from property names to values.
    - The program is asynchronous but single-tasked: every [await] is a
      sequencing point, so a computation is a function from a machine
      state to an outcome and a new state.  The state records the
      observable events (timers, fetches, warnings, sleeps) in order.
    - [fetch], [Math.random], [new URL(..)], [Number(..)] and the
      string conversion of template literals belong to the JavaScript
      runtime; they are fields of an environment record [Env]. *)

From Stdlib Require Import ZArith QArith Qround Qpower Qabs Lqa Lia.
From Stdlib Require Import PrimFloat SpecFloat FloatOps.
From Stdlib Require Import Ascii String DecimalString List Bool.
From stdpp Require Import base option strings list gmap fin_maps.

Local Open Scope string_scope.
Local Open Scope Z_scope.

(** ** JavaScript values *)

#[warnings="-register-all"]
Inductive JsVal : Type :=
  | JUndefined
  | JNull
  | JBool (b : bool)
  | JNum (q : Q)
  | JStr (s : string)
  | JArr (xs : list JsVal)
  | JObj (props : gmap string JsVal).

(** Truthiness, as used by [a || b] and [if (a)]. *)
Definition truthy (v : JsVal) : bool :=
  match v with
  | JUndefined | JNull => false
  | JBool b => b
  | JNum q => negb (Qeq_bool q 0)
  | JStr s => negb (String.eqb s "")
  | JArr _ | JObj _ => true
  end.

(** [a || b] *)
Definition js_or (a b : JsVal) : JsVal := if truthy a then a else b.

(** [v === 'lit'] for a string literal. *)
Definition str_eq (v : JsVal) (lit : string) : bool :=
  match v with
  | JStr s => String.eqb s lit
  | _ => false
  end.

(** [v !== n] for a number literal. *)
Definition num_neq (v : JsVal) (n : Q) : bool :=
  match v with
  | JNum q => negb (Qeq_bool q n)
  | _ => true
  end.

(** ** Errors, responses and requests *)

(** A thrown value.  [err_is_Error] is the answer to [instanceof Error]. *)
Record JsError := {
  err_is_Error : bool;
  err_name : string;
  err_message : string }.

Definition Error (msg : string) : JsError :=
  {| err_is_Error := true; err_name := "Error"; err_message := msg |}.

Definition TypeError (msg : string) : JsError :=
  {| err_is_Error := true; err_name := "TypeError"; err_message := msg |}.

Definition SyntaxError (msg : string) : JsError :=
  {| err_is_Error := true; err_name := "SyntaxError"; err_message := msg |}.

(** A [Response]: the status, the body as text, and the body parsed as
    JSON ([None] when the body is not JSON, so that [json()] rejects). *)
Record Response := {
  resp_status : Z;
  resp_text : string;
  resp_json : option JsVal }.

(** [response.ok] *)
Definition ok (r : Response) : bool :=
  (200 <=? resp_status r) && (resp_status r <=? 299).

(** A request body: [JSON.stringify(v)], a [FormData] holding one
    ['file'] entry, or text supplied by the caller. *)
Inductive Body :=
  | BodyJson (v : JsVal)
  | BodyForm (file : list Byte.byte)
  | BodyText (s : string).

(** [RequestOptions]: the fields of [RequestInit] the client reads or
    sets, and the four fields the interface adds.

    [opt_method] and [opt_body] are [None] when the property is absent,
    [Some None] when it is present with the value [undefined], and
    [Some (Some v)] when it holds [v]: an object spread copies a
    property that is present, whatever its value.  The other fields
    are read only through a destructuring default, [||] or a truth
    test, which treat [undefined] like an absent property; for them
    [None] stands for both. *)
Record RequestOptions := {
  opt_method : option (option string);
  opt_body : option (option Body);
  opt_headers : option (gmap string string);
  opt_timeout : option Q;
  opt_maxRetries : option Q;
  opt_webhook : option string;
  opt_isUpload : option bool }.

Definition no_options : RequestOptions :=
  {| opt_method := None; opt_body := None; opt_headers := None;
     opt_timeout := None; opt_maxRetries := None; opt_webhook := None;
     opt_isUpload := None |}.

(** [{ method: 'POST', body: body, ...options }]: [method] and [body]
    are those of [options] when [options] has the property, also when
    its value is [undefined]; every other property is that of
    [options]. *)
Definition post_with (body : Body) (options : RequestOptions) : RequestOptions :=
  {| opt_method := opt_method options ∪ Some (Some "POST");
     opt_body := opt_body options ∪ Some (Some body);
     opt_headers := opt_headers options;
     opt_timeout := opt_timeout options;
     opt_maxRetries := opt_maxRetries options;
     opt_webhook := opt_webhook options;
     opt_isUpload := opt_isUpload options |}.

(** What [fetch] receives next to the URL. *)
Record FetchInit := {
  fi_method : option string;
  fi_body : option Body;
  fi_headers : gmap string string }.

Inductive FetchOutcome :=
  | Resolved (r : Response)
  | Rejected (e : JsError).

(** ** The client and the job record *)

Record WaveSpeed := {
  apiKey : string;
  baseUrl : string;
  pollInterval : Q;
  timeout : Q }.

Record Prediction := {
  p_id : JsVal;
  p_model : JsVal;
  p_status : JsVal;
  p_input : JsVal;
  p_outputs : JsVal;
  p_urls : JsVal;
  p_has_nsfw_contents : JsVal;
  p_created_at : JsVal;
  p_error : JsVal;
  p_executionTime : JsVal;
  p_client : WaveSpeed }.

(** ** The runtime *)

Record Env := {
  (** the answer of the network to the [i]-th call of [fetch] *)
  env_fetch : nat -> string -> FetchInit -> FetchOutcome;
  (** the [i]-th value of [Math.random()] *)
  env_random : nat -> Q;
  (** [new URL(path, base).toString()], [None] when it throws *)
  env_URL : string -> string -> option string;
  (** [Number(s)] on a string, [None] for NaN *)
  env_Number : string -> option Q;
  (** string conversion of a value that is not a string *)
  env_ToString : JsVal -> string;
  (** [typeof console !== 'undefined'] *)
  env_console : bool }.

Inductive Event :=
  | EvSetTimeout (ms : Q)
  | EvFetch (url : string) (init : FetchInit)
  | EvClearTimeout
  | EvWarn (msg : string)
  | EvSleep (ms : Q).

(** Objects live in a store; a reference is an address. *)
Record State := {
  st_trace : list Event;
  st_fetches : nat;
  st_randoms : nat;
  st_heap : gmap nat Prediction;
  st_next : nat }.

Inductive Outcome (A : Type) :=
  | Ret (a : A)
  | Throw (e : JsError)
  | OutOfFuel
  | BadRef.
Arguments Ret {A} a.
Arguments Throw {A} e.
Arguments OutOfFuel {A}.
Arguments BadRef {A}.

Definition M (A : Type) : Type := State -> Outcome A * State.

Definition ret {A} (a : A) : M A := fun s => (Ret a, s).
Definition throw {A} (e : JsError) : M A := fun s => (Throw e, s).
Definition out_of_fuel {A} : M A := fun s => (OutOfFuel, s).

Definition bind {A B} (m : M A) (k : A -> M B) : M B :=
  fun s =>
    match m s with
    | (Ret a, s') => k a s'
    | (Throw e, s') => (Throw e, s')
    | (OutOfFuel, s') => (OutOfFuel, s')
    | (BadRef, s') => (BadRef, s')
    end.

Notation "'let*' x ':=' c 'in' k" := (bind c (fun x => k))
  (at level 10, x name, c at level 100, k at level 200).
Notation "c ';;' k" := (bind c (fun _ => k))
  (at level 100, k at level 200, right associativity).

(** [try { body } catch (e) { handler e }] *)
Definition try_catch {A} (body : M A) (handler : JsError -> M A) : M A :=
  fun s =>
    match body s with
    | (Throw e, s') => handler e s'
    | r => r
    end.

(** [try { body } finally { fin }], for a [fin] that completes normally. *)
Definition try_finally {A} (body : M A) (fin : M unit) : M A :=
  fun s =>
    match body s with
    | (Ret a, s') => (Ret a, snd (fin s'))
    | (Throw e, s') => (Throw e, snd (fin s'))
    | r => r
    end.

Definition emit (e : Event) : M unit :=
  fun s => (Ret tt,
    {| st_trace := st_trace s ++ [e]; st_fetches := st_fetches s;
       st_randoms := st_randoms s; st_heap := st_heap s;
       st_next := st_next s |}).

Definition read (l : nat) : M Prediction :=
  fun s =>
    match st_heap s !! l with
    | Some p => (Ret p, s)
    | None => (BadRef, s)
    end.

(** [Object.assign(this, p)] where [p] carries every field of the class. *)
Definition assign (l : nat) (p : Prediction) : M unit :=
  fun s => (Ret tt,
    {| st_trace := st_trace s; st_fetches := st_fetches s;
       st_randoms := st_randoms s; st_heap := <[l := p]> (st_heap s);
       st_next := st_next s |}).

(** A new object at the next free address. *)
Definition alloc (p : Prediction) : M nat :=
  fun s => (Ret (st_next s),
    {| st_trace := st_trace s; st_fetches := st_fetches s;
       st_randoms := st_randoms s;
       st_heap := <[st_next s := p]> (st_heap s);
       st_next := S (st_next s) |}).

(** [v == null] *)
Definition nullish (v : JsVal) : bool :=
  match v with
  | JUndefined | JNull => true
  | _ => false
  end.

(** The value of [v.k] for a [v] that has properties; the property
    names the client reads are own properties of objects only. *)
Definition prop (v : JsVal) (k : string) : JsVal :=
  match v with
  | JObj props => default JUndefined (props !! k)
  | _ => JUndefined
  end.

(** [v.k]: reading a property of [undefined] or [null] throws. *)
Definition get_prop (v : JsVal) (k : string) : M JsVal :=
  match v with
  | JUndefined =>
      throw (TypeError ("Cannot read properties of undefined (reading '" ++ k ++ "')"))
  | JNull =>
      throw (TypeError ("Cannot read properties of null (reading '" ++ k ++ "')"))
  | _ => ret (prop v k)
  end.

(** [response.json()] *)
Definition json (r : Response) : M JsVal :=
  match resp_json r with
  | Some v => ret v
  | None => throw (SyntaxError "Unexpected token in JSON")
  end.

(** [response.text()] *)
Definition text (r : Response) : M string := ret (resp_text r).

(** [s.toUpperCase()] on the ASCII letters. *)
Definition upper_ascii (c : ascii) : ascii :=
  let n := nat_of_ascii c in
  if ((97 <=? n) && (n <=? 122))%nat then ascii_of_nat (n - 32) else c.

Fixpoint toUpperCase (s : string) : string :=
  match s with
  | EmptyString => EmptyString
  | String c s' => String (upper_ascii c) (toUpperCase s')
  end.

(** [a || b] on an optional string and on an optional number. *)
Definition str_or (a : option string) (b : string) : string :=
  match a with
  | Some s => if String.eqb s "" then b else s
  | None => b
  end.

Definition num_or (a : option Q) (b : Q) : Q :=
  match a with
  | Some q => if Qeq_bool q 0 then b else q
  | None => b
  end.

(** [Math.round(q)] *)
Definition Math_round (q : Q) : Z := Qfloor (q + (1 # 2))%Q.

Definition of_nat (n : nat) : Q := inject_Z (Z.of_nat n).

(** [new Prediction(data, client)] *)
Definition new_Prediction (data : JsVal) (c : WaveSpeed) : M nat :=
  let* id := get_prop data "id" in
  let* model := get_prop data "model" in
  let* status := get_prop data "status" in
  let* input := get_prop data "input" in
  let* outputs := get_prop data "outputs" in
  let* urls := get_prop data "urls" in
  let* nsfw := get_prop data "has_nsfw_contents" in
  let* created_at := get_prop data "created_at" in
  let* error := get_prop data "error" in
  let* executionTime := get_prop data "executionTime" in
  alloc {| p_id := id; p_model := model; p_status := status;
           p_input := input; p_outputs := js_or outputs (JArr []);
           p_urls := urls; p_has_nsfw_contents := js_or nsfw (JArr []);
           p_created_at := created_at; p_error := error;
           p_executionTime := executionTime; p_client := c |}.

(** ** The [WaveSpeed] client *)

Record ClientOptions := {
  co_baseUrl : option string;
  co_pollInterval : option Q;
  co_timeout : option Q }.

(** How one round of the retry loop ends: the function returns, or the
    loop goes round again with the raised retry counter. *)
Inductive Step :=
  | Return (r : Response)
  | Continue (retryCount : nat).

Section Client.

Variable E : Env.

(** [`${v}`] *)
Definition ToString (v : JsVal) : string :=
  match v with
  | JStr s => s
  | _ => env_ToString E v
  end.

Definition show_Z (z : Z) : string := ToString (JNum (inject_Z z)).
Definition show_Q (q : Q) : string := ToString (JNum q).

(** [getEnvVar] of the constructor; [penv] is [process.env], [None]
    where there is no [process]. *)
Definition getEnvVar (penv : option (gmap string string)) (name : string)
  : option string :=
  match penv with
  | Some vars =>
      match vars !! name with
      | Some v => if String.eqb v "" then None else Some v
      | None => None
      end
  | None => None
  end.

(** [Number(getEnvVar(name))] *)
Definition Number_env (penv : option (gmap string string)) (name : string)
  : option Q :=
  match getEnvVar penv name with
  | Some v => env_Number E v
  | None => None
  end.

(** [new WaveSpeed(apiKey, options)] *)
Definition constructor (penv : option (gmap string string))
    (key : option string) (options : ClientOptions) : M WaveSpeed :=
  let this_apiKey := str_or key (str_or (getEnvVar penv "WAVESPEED_API_KEY") "") in
  if String.eqb this_apiKey "" then
    throw (Error "API key is required. Provide it as a parameter or set the WAVESPEED_API_KEY environment variable.")
  else
    ret {| apiKey := this_apiKey;
           baseUrl := str_or (co_baseUrl options) "https://api.wavespeed.ai/api/v3/";
           pollInterval :=
             num_or (co_pollInterval options)
               (num_or (Number_env penv "WAVESPEED_POLL_INTERVAL") (1 # 2));
           timeout :=
             num_or (co_timeout options)
               (num_or (Number_env penv "WAVESPEED_TIMEOUT") 120) |}.

(** [_getBackoffTime], given the value [rnd] of [Math.random()]: the
    real number the expression denotes.  Its evaluation in doubles is
    [double_backoffTime] below. *)
Definition backoffTime (retryCount : Z) (initialBackoff : Q) (rnd : Q) : Q :=
  let backoff := (initialBackoff * 2 ^ retryCount)%Q in
  (backoff + rnd * (backoff / 2))%Q.

Definition Math_random : M Q :=
  fun s => (Ret (env_random E (st_randoms s)),
    {| st_trace := st_trace s; st_fetches := st_fetches s;
       st_randoms := S (st_randoms s); st_heap := st_heap s;
       st_next := st_next s |}).

Definition _getBackoffTime (retryCount : Z) (initialBackoff : Q) : M Q :=
  let* rnd := Math_random in
  ret (backoffTime retryCount initialBackoff rnd).

Definition fetch (url : string) (init : FetchInit) : M Response :=
  fun s =>
    let s' := {| st_trace := st_trace s ++ [EvFetch url init];
                 st_fetches := S (st_fetches s);
                 st_randoms := st_randoms s; st_heap := st_heap s;
                 st_next := st_next s |} in
    match env_fetch E (st_fetches s) url init with
    | Resolved r => (Ret r, s')
    | Rejected e => (Throw e, s')
    end.

(** [new URL(path.startsWith('/') ? path.substring(1) : path, base)] *)
Definition strip_slash (path : string) : string :=
  match path with
  | String "/" rest => rest
  | _ => path
  end.

Definition new_URL (path base : string) : M string :=
  match env_URL E path base with
  | Some u => ret u
  | None => throw (TypeError "Invalid URL")
  end.

Definition console_warn (msg : string) : M unit :=
  if env_console E then emit (EvWarn msg) else ret tt.

(** The timeout of a call, in milliseconds. *)
Definition effective_timeout (c : WaveSpeed) (options : RequestOptions) : Q :=
  match opt_timeout options with
  | Some t => t
  | None => (timeout c * 1000)%Q
  end.

(** The headers of a call. *)
Definition compose_headers (c : WaveSpeed) (options : RequestOptions)
  : gmap string string :=
  let own := default ∅ (opt_headers options) in
  if default false (opt_isUpload options) then
    own ∪ {[ "Authorization" := "Bearer " ++ apiKey c ]}
  else
    own ∪ <[ "content-type" := "application/json" ]>
            {[ "Authorization" := "Bearer " ++ apiKey c ]}.

Definition fetch_init (c : WaveSpeed) (options : RequestOptions) : FetchInit :=
  {| fi_method := mjoin (opt_method options);
     fi_body := mjoin (opt_body options);
     fi_headers := compose_headers c options |}.

(** [options.maxRetries || 3] *)
Definition effective_maxRetries (options : RequestOptions) : Q :=
  num_or (opt_maxRetries options) 3.

Definition effective_method (options : RequestOptions) : string :=
  toUpperCase (str_or (mjoin (opt_method options)) "GET").

Definition shouldRetry (options : RequestOptions) (response : Response) : bool :=
  (resp_status response =? 429)
  || (String.eqb (effective_method options) "GET" && (500 <=? resp_status response)).

Definition Qlt_bool (a b : Q) : bool := negb (Qle_bool b a).

(** The tail shared by the two retry paths: raise the counter, compute
    the delay, warn, sleep. *)
Definition retry_after (failure : string) (options : RequestOptions)
    (retryCount : nat) : M Step :=
  let retryCount' := S retryCount in
  let* backoff := _getBackoffTime (Z.of_nat retryCount') 1000 in
  console_warn (failure ++ ". Retrying (" ++ show_Q (of_nat retryCount')
                ++ "/" ++ show_Q (effective_maxRetries options) ++ ") in "
                ++ show_Z (Math_round backoff) ++ "ms...") ;;
  emit (EvSleep backoff) ;;
  ret (Continue retryCount').

(** The [try] block of one round. *)
Definition attempt (c : WaveSpeed) (path : string) (options : RequestOptions)
    (retryCount : nat) : M Step :=
  let* url := new_URL (strip_slash path) (baseUrl c) in
  let* response := fetch url (fetch_init c options) in
  if ok response || negb (shouldRetry options response)
     || Qle_bool (effective_maxRetries options) (of_nat retryCount)
  then ret (Return response)
  else retry_after ("Request failed with status " ++ show_Z (resp_status response))
         options retryCount.

(** The [catch] block of one round. *)
Definition recover (options : RequestOptions) (retryCount : nat)
    (error : JsError) : M Step :=
  if err_is_Error error
     && (String.eqb (err_name error) "AbortError"
         || String.eqb (err_name error) "TypeError")
     && Qlt_bool (of_nat retryCount) (effective_maxRetries options)
  then retry_after ("Request failed with error: " ++ err_message error)
         options retryCount
  else throw error.

(** The [while (true)] loop of [fetchWithTimeout]. *)
Fixpoint fetch_loop (fuel : nat) (c : WaveSpeed) (path : string)
    (options : RequestOptions) (retryCount : nat) : M Response :=
  match fuel with
  | O => out_of_fuel
  | S fuel' =>
      emit (EvSetTimeout (effective_timeout c options)) ;;
      let* step :=
        try_finally
          (try_catch (attempt c path options retryCount)
                     (recover options retryCount))
          (emit EvClearTimeout) in
      match step with
      | Return response => ret response
      | Continue retryCount' => fetch_loop fuel' c path options retryCount'
      end
  end.

Definition fetchWithTimeout (fuel : nat) (c : WaveSpeed) (path : string)
    (options : RequestOptions) : M Response :=
  fetch_loop fuel c path options 0.

(** ** The [Prediction] class *)

Definition terminal (status : JsVal) : bool :=
  str_eq status "completed" || str_eq status "failed".

(** [reload] *)
Definition reload (fuel : nat) (this : nat) : M nat :=
  let* self := read this in
  let* response :=
    fetchWithTimeout fuel (p_client self)
      ("predictions/" ++ ToString (p_id self) ++ "/result") no_options in
  if negb (ok response) then
    let* errorText := text response in
    throw (Error ("Failed to reload prediction: " ++ show_Z (resp_status response)
                  ++ " " ++ errorText))
  else
    let* data := json response in
    let* payload := get_prop data "data" in
    let* self := read this in
    let* updatedPrediction := new_Prediction payload (p_client self) in
    let* fresh := read updatedPrediction in
    assign this fresh ;;
    ret this.

(** [checkStatus], the closure of [wait].  A rejection of [reload]
    rejects the promise of [wait]; otherwise the closure is scheduled
    again after [pollInterval * 1000] milliseconds. *)
Fixpoint checkStatus (polls : nat) (fuel : nat) (this : nat) : M nat :=
  match polls with
  | O => out_of_fuel
  | S polls' =>
      let* updated := reload fuel this in
      let* u := read updated in
      if terminal (p_status u) then ret updated
      else
        let* self := read this in
        emit (EvSleep (pollInterval (p_client self) * 1000)%Q) ;;
        checkStatus polls' fuel this
  end.

(** [wait] *)
Definition wait (polls : nat) (fuel : nat) (this : nat) : M nat :=
  let* self := read this in
  if terminal (p_status self) then ret this
  else checkStatus polls fuel this.

(** ** Submitting and uploading *)

(** The path [create] posts to. *)
Definition create_url (modelId : string) (options : option RequestOptions)
  : string :=
  match options with
  | Some o =>
      match opt_webhook o with
      | Some w => if String.eqb w "" then modelId
                  else modelId ++ "?webhook=" ++ w
      | None => modelId
      end
  | None => modelId
  end.

(** The options [create] hands to [fetchWithTimeout]. *)
Definition create_options (input : JsVal) (options : option RequestOptions)
  : RequestOptions :=
  post_with (BodyJson input) (default no_options options).

(** [create] *)
Definition create (fuel : nat) (c : WaveSpeed) (modelId : string)
    (input : JsVal) (options : option RequestOptions) : M nat :=
  let* response :=
    fetchWithTimeout fuel c (create_url modelId options)
      (create_options input options) in
  if negb (ok response) then
    let* errorText := text response in
    throw (Error ("Failed to create prediction: " ++ show_Z (resp_status response)
                  ++ " " ++ errorText))
  else
    let* data := json response in
    let* code := get_prop data "code" in
    if num_neq code 200 then
      throw (Error ("Failed to create prediction: " ++ ToString code
                    ++ " " ++ ToString data))
    else
      let* payload := get_prop data "data" in
      new_Prediction payload c.

(** [run] *)
Definition run (polls : nat) (fuel : nat) (c : WaveSpeed) (modelId : string)
    (input : JsVal) (options : option RequestOptions) : M nat :=
  let* prediction := create fuel c modelId input options in
  wait polls fuel prediction.

(** The options [upload] hands to [fetchWithTimeout]. *)
Definition upload_options (file : list Byte.byte)
    (options : option RequestOptions) : RequestOptions :=
  let options :=
    match options with
    | None => {| opt_method := None; opt_body := None; opt_headers := None;
                 opt_timeout := None; opt_maxRetries := None;
                 opt_webhook := None; opt_isUpload := Some true |}
    | Some o => o
    end in
  post_with (BodyForm file) options.

(** [upload] *)
Definition upload (fuel : nat) (c : WaveSpeed) (file : list Byte.byte)
    (options : option RequestOptions) : M JsVal :=
  let* response :=
    fetchWithTimeout fuel c "media/upload/binary" (upload_options file options) in
  if negb (ok response) then
    let* errorText := text response in
    throw (Error ("Failed to upload file: " ++ show_Z (resp_status response)
                  ++ " " ++ errorText))
  else
    let* resp := json response in
    let* data := get_prop resp "data" in
    get_prop data "download_url".

End Client.

(** ** The backoff in double precision *)

(** The position of the leading bit of a positive rational:
    [2 ^ Qlog2 q <= q < 2 ^ (Qlog2 q + 1)]. *)
Definition Qlog2 (q : Q) : Z :=
  let k := Z.log2 (Qnum q) - Z.log2 (Z.pos (Qden q)) in
  if Qle_bool (2 ^ k) q then k else k - 1.

(** The exponent of the spacing of the doubles around [q]: 52 bits
    below the leading bit, and never below that of the subnormals. *)
Definition ulp_exponent (q : Q) : Z := Z.max (Qlog2 (Qabs q) - 52) (-1074).

(** The nearest integer, ties to the even one. *)
Definition round_half_even (q : Q) : Z :=
  let f := Qfloor q in
  match (q - inject_Z f ?= 1 # 2)%Q with
  | Lt => f
  | Gt => f + 1
  | Eq => if Z.even f then f else f + 1
  end.

(** The result of a binary64 operation whose exact value is [q]: the
    nearest double, ties to even, or [None] when it overflows. *)
Definition round64 (q : Q) : option Q :=
  if Qeq_bool q 0 then Some 0%Q
  else
    let u := ulp_exponent q in
    let v := (inject_Z (round_half_even (q / 2 ^ u)) * 2 ^ u)%Q in
    if Qle_bool (2 ^ 1024) (Qabs v) then None else Some v.

(** [initialBackoff * Math.pow(2, retryCount)] *)
Definition double_backoff (retryCount : Z) (initialBackoff : Q) : option Q :=
  pow ← round64 (2 ^ retryCount)%Q;
  round64 (initialBackoff * pow)%Q.

(** [Math.random() * (backoff / 2)] *)
Definition double_jitter (backoff rnd : Q) : option Q :=
  half ← round64 (backoff / 2)%Q;
  round64 (rnd * half)%Q.

(** [_getBackoffTime] as the code runs it, every operation rounded to
    a double; [rnd] is the value of [Math.random()].  An operand that
    is not finite makes the result not finite ([Infinity], or NaN for
    [0 * Infinity]). *)
Definition double_backoffTime (retryCount : Z) (initialBackoff rnd : Q) : option Q :=
  backoff ← double_backoff retryCount initialBackoff;
  jitter ← double_jitter backoff rnd;
  round64 (backoff + jitter)%Q.

(** The same expression on the primitive binary64 floats of the
    kernel, to compare [round64] with. *)
Definition float_backoffTime (retryCount : Z) (initialBackoff rnd : float) : float :=
  let backoff := (initialBackoff * Z.ldexp 1 retryCount)%float in
  (backoff + rnd * (backoff / 2))%float.

(** The value of a finite float. *)
Definition Q_of_float (f : float) : option Q :=
  match Prim2SF f with
  | S754_zero _ => Some 0%Q
  | S754_finite sign m e =>
      Some ((if sign then -1 else 1) * inject_Z (Z.pos m) * 2 ^ e)%Q
  | S754_infinity _ | S754_nan => None
  end.

Definition same_number (a b : option Q) : bool :=
  match a, b with
  | Some x, Some y => Qeq_bool x y
  | None, None => true
  | _, _ => false
  end.

Definition agrees_with_floats (retryCount : Z) (rnd : float) : bool :=
  match Q_of_float rnd with
  | Some r =>
      same_number (double_backoffTime retryCount 1000 r)
                  (Q_of_float (float_backoffTime retryCount 1000 rnd))
  | None => false
  end.

Definition sample_draws : list float :=
  [ 0%float; 0x1p-1074%float; 0x1p-53%float; 0x1.999999999999ap-4%float;
    0x1.5555555555555p-2%float; 0x1p-1%float; 0x1.921fb54442d18p-1%float;
    0x1.ffffffffffffep-1%float; 0x1.fffffffffffffp-1%float ].

Definition sample_retries : list Z :=
  [0; 1; 2; 3; 10; 52; 53; 54; 970; 1012; 1013; 1014; 1015; 1016; 1100].

(** ** Reading a trace *)

(** The number of calls of [fetch] recorded in a trace. *)
Fixpoint attempts (tr : list Event) : nat :=
  match tr with
  | [] => 0
  | EvFetch _ _ :: tr' => S (attempts tr')
  | _ :: tr' => attempts tr'
  end.

(** The rhythm of a trace: its fetches and its sleeps, in order. *)
Inductive Beat :=
  | Poll
  | Nap (ms : Q).

Fixpoint rhythm (tr : list Event) : list Beat :=
  match tr with
  | [] => []
  | EvFetch _ _ :: tr' => Poll :: rhythm tr'
  | EvSleep ms :: tr' => Nap ms :: rhythm tr'
  | _ :: tr' => rhythm tr'
  end.

(** A poll, then [k] times a nap and a poll. *)
Fixpoint polling (ms : Q) (k : nat) : list Beat :=
  match k with
  | O => [Poll]
  | S k' => Poll :: Nap ms :: polling ms k'
  end.

(** A 2xx answer whose envelope carries a payload, with a status that is
    terminal or not as [done] says. *)
Definition status_update (r : Response) (done : bool) : Prop :=
  ok r = true
  /\ exists data,
       resp_json r = Some data /\ nullish data = false
       /\ nullish (prop data "data") = false
       /\ terminal (prop (prop data "data") "status") = done.

(** ** A runtime for the examples *)

Definition decimal (z : Z) : string := NilZero.string_of_int (Z.to_int z).

(** String conversion; a number that is not an integer is shown as a
    fraction (JavaScript prints it in decimal notation). *)
Fixpoint sample_ToString (v : JsVal) : string :=
  match v with
  | JUndefined => "undefined"
  | JNull => "null"
  | JBool b => if b then "true" else "false"
  | JNum q =>
      if Pos.eqb (Qden q) 1 then decimal (Qnum q)
      else decimal (Qnum q) ++ "/" ++ decimal (Z.pos (Qden q))
  | JStr s => s
  | JArr xs =>
      (fix join (l : list JsVal) : string :=
         match l with
         | [] => ""
         | x :: l' =>
             (if nullish x then "" else sample_ToString x)
             ++ match l' with [] => "" | _ => "," ++ join l' end
         end) xs
  | JObj _ => "[object Object]"
  end.

(** The network answers the [i]-th fetch with [answer i]; a URL is the
    base followed by the path; [Number] reads decimal integers. *)
Definition sample_env (answer : nat -> FetchOutcome) : Env :=
  {| env_fetch := fun i _ _ => answer i;
     env_random := fun _ => 1 # 2;
     env_URL := fun path base => Some (base ++ path);
     env_Number := fun s =>
       option_map (fun i => inject_Z (Z.of_int i)) (NilZero.int_of_string s);
     env_ToString := sample_ToString;
     env_console := true |}.

Definition sample_client : WaveSpeed :=
  {| apiKey := "test-api-key"; baseUrl := "https://api.wavespeed.ai/api/v3/";
     pollInterval := 1 # 2; timeout := 120 |}.

Definition initial_state : State :=
  {| st_trace := []; st_fetches := 0; st_randoms := 0; st_heap := ∅;
     st_next := 0 |}.

Definition obj (props : list (string * JsVal)) : JsVal := JObj (list_to_map props).

Definition json_response (status : Z) (body : JsVal) : Response :=
  {| resp_status := status; resp_text := ""; resp_json := Some body |}.

Definition text_response (status : Z) (body : string) : Response :=
  {| resp_status := status; resp_text := body; resp_json := None |}.

(** The envelope of job [pred-123] in a given status. *)
Definition job_payload (status : string) (outputs : list JsVal) : JsVal :=
  obj [("id", JStr "pred-123"); ("model", JStr "wavespeed-ai/flux-dev");
       ("status", JStr status); ("input", obj [("prompt", JStr "test prompt")]);
       ("outputs", JArr outputs);
       ("urls", obj [("get", JStr "https://api.wavespeed.ai/api/v3/predictions/pred-123/result")]);
       ("has_nsfw_contents", JArr (map (fun _ => JBool false) outputs));
       ("created_at", JStr "2023-01-01T00:00:00Z")].

Definition job_envelope (status : string) (outputs : list JsVal) : JsVal :=
  obj [("code", JNum 200); ("data", job_payload status outputs)].

(** A job record in a given status, owned by the sample client. *)
Definition sample_job (status : string) (error : JsVal) : Prediction :=
  {| p_id := JStr "pred-123"; p_model := JStr "wavespeed-ai/flux-dev";
     p_status := JStr status; p_input := obj [("prompt", JStr "test prompt")];
     p_outputs := JArr []; p_urls := JUndefined;
     p_has_nsfw_contents := JArr []; p_created_at := JStr "2023-01-01T00:00:00Z";
     p_error := error; p_executionTime := JUndefined;
     p_client := sample_client |}.

(** A store holding one job at address 0. *)
Definition state_with (p : Prediction) : State :=
  {| st_trace := []; st_fetches := 0; st_randoms := 0;
     st_heap := {[ 0%nat := p ]}; st_next := 1 |}.

Definition options_with_maxRetries (q : Q) : RequestOptions :=
  {| opt_method := None; opt_body := None; opt_headers := None;
     opt_timeout := None; opt_maxRetries := Some q; opt_webhook := None;
     opt_isUpload := None |}.

Definition options_with_method (m : string) : RequestOptions :=
  {| opt_method := Some (Some m); opt_body := None; opt_headers := None;
     opt_timeout := None; opt_maxRetries := None; opt_webhook := None;
     opt_isUpload := None |}.

Definition options_with_timeout (ms : Q) : RequestOptions :=
  {| opt_method := None; opt_body := None; opt_headers := None;
     opt_timeout := Some ms; opt_maxRetries := None; opt_webhook := None;
     opt_isUpload := None |}.

(** The headers of the fetches recorded in a trace. *)
Fixpoint fetched_headers (tr : list Event) : list (gmap string string) :=
  match tr with
  | [] => []
  | EvFetch _ init :: tr' => fi_headers init :: fetched_headers tr'
  | _ :: tr' => fetched_headers tr'
  end.

(** ** Frames *)

(** [s'] is [s] after some events, none of which touches the store, and
    whose fetches all carry the request [init]. *)
Definition transport_frame (init : FetchInit) (s s' : State) : Prop :=
  st_heap s' = st_heap s /\ st_next s' = st_next s
  /\ exists tr, st_trace s' = (st_trace s ++ tr)%list
       /\ Forall (fun ev => forall u i, ev = EvFetch u i -> i = init) tr.

(** A computation keeps the frame when every run of it does. *)
Definition framed {A} (init : FetchInit) (m : M A) : Prop :=
  forall s o s', m s = (o, s') -> transport_frame init s s'.

(** ** Sample services *)

(** The service of the retry-cap test: 429 on every attempt. *)
Definition always_429 : Env :=
  sample_env (fun _ => Resolved (text_response 429 "Rate limit exceeded")).

(** The service of the 5xx tests: 503, then 200. *)
Definition unavailable_once : Env :=
  sample_env (fun i =>
    match i with
    | O => Resolved (text_response 503 "Service unavailable")
    | _ => Resolved (json_response 200 (obj [("success", JBool true)]))
    end).

(** A service that reports the job as completed. *)
Definition job_done : Env :=
  sample_env (fun _ => Resolved (json_response 200 (job_envelope "completed" [JStr "url1"]))).

(** A service that accepts the HTTP request and refuses the job. *)
Definition job_refused : Env :=
  sample_env (fun _ =>
    Resolved (json_response 200 (obj [("code", JNum 500); ("message", JStr "model not found")]))).

(** A service that reports the job as running once, then as completed. *)
Definition poll_answer (i : nat) : Response :=
  match i with
  | O => json_response 200 (job_envelope "processing" [])
  | _ => json_response 200 (job_envelope "completed" [JStr "url1"])
  end.

Definition job_done_at_second_poll : Env :=
  sample_env (fun i => Resolved (poll_answer i)).

(** A service that stores the upload. *)
Definition upload_accepted : Env :=
  sample_env (fun _ =>
    Resolved (json_response 200
      (obj [("code", JNum 200); ("message", JStr "success");
            ("data", obj [("type", JStr "image/png");
                          ("download_url", JStr "https://cdn.example.com/f.png");
                          ("filename", JStr "f.png"); ("size", JNum 3)])]))).

(** ** Outcomes and timers *)

(** The test of the [catch] block on the thrown value: an [Error] named
    [AbortError] or [TypeError]. *)
Definition transient (e : JsError) : bool :=
  err_is_Error e
  && (String.eqb (err_name e) "AbortError" || String.eqb (err_name e) "TypeError").

(** The call came back, with a value or with an exception. *)
Definition settled {A} (o : Outcome A) : Prop :=
  match o with
  | Ret _ | Throw _ => True
  | OutOfFuel | BadRef => False
  end.

(** The abort timers of a trace: armed and cleared, in order. *)
Fixpoint timer_events (tr : list Event) : list Event :=
  match tr with
  | [] => []
  | EvSetTimeout ms :: tr' => EvSetTimeout ms :: timer_events tr'
  | EvClearTimeout :: tr' => EvClearTimeout :: timer_events tr'
  | _ :: tr' => timer_events tr'
  end.

(** [n] timers of [ms] milliseconds, each cleared before the next is armed. *)
Fixpoint armed_and_cleared (ms : Q) (n : nat) : list Event :=
  match n with
  | O => []
  | S n' => EvSetTimeout ms :: EvClearTimeout :: armed_and_cleared ms n'
  end.

(** The sleeps of a trace. *)
Fixpoint sleeps (tr : list Event) : list Q :=
  match tr with
  | [] => []
  | EvSleep ms :: tr' => ms :: sleeps tr'
  | _ :: tr' => sleeps tr'
  end.

(** A computation that records no event. *)
Definition silent {A} (m : M A) : Prop :=
  forall s o s', m s = (o, s') -> st_trace s' = st_trace s.

(** An error of [fetch] that is neither an abort nor a network failure. *)
Definition security_error : JsError :=
  {| err_is_Error := true; err_name := "SecurityError";
     err_message := "blocked" |}.

(** A network that is down: every fetch fails with the same error. *)
Definition network_down (e : JsError) : Env := sample_env (fun _ => Rejected e).

(** A network that fails once, then answers 200. *)
Definition network_flaky : Env :=
  sample_env (fun i =>
    match i with
    | O => Rejected (TypeError "Failed to fetch")
    | _ => Resolved (json_response 200 (obj [("success", JBool true)]))
    end).

(** A runtime in which no path resolves to a URL. *)
Definition no_url : Env :=
  {| env_fetch := fun _ _ _ => Resolved (text_response 200 "");
     env_random := fun _ => 1 # 2;
     env_URL := fun _ _ => None;
     env_Number := fun _ => None;
     env_ToString := sample_ToString;
     env_console := true |}.

(** A service that does not know the job. *)
Definition job_unknown : Env :=
  sample_env (fun _ => Resolved (text_response 404 "Prediction not found")).

(** A service that reports the job as running once, then forgets it. *)
Definition lost_answer (i : nat) : Response :=
  match i with
  | O => json_response 200 (job_envelope "processing" [])
  | _ => text_response 404 "Prediction not found"
  end.

Definition job_lost_at_second_poll : Env :=
  sample_env (fun i => Resolved (lost_answer i)).

(** A service that is unavailable once, then reports the job as completed. *)
Definition job_done_after_outage : Env :=
  sample_env (fun i =>
    match i with
    | O => Resolved (text_response 503 "Service unavailable")
    | _ => Resolved (json_response 200 (job_envelope "completed" [JStr "url1"]))
    end).

(** A service that limits the rate once, then accepts the job. *)
Definition rate_limited_once : Env :=
  sample_env (fun i =>
    match i with
    | O => Resolved (text_response 429 "Rate limit exceeded")
    | _ => Resolved (json_response 200 (job_envelope "processing" []))
    end).

(** * Properties *)

(** ** Running a computation step by step *)

Lemma bind_ret {A B} (a : A) (k : A -> M B) (s : State) :
  bind (ret a) k s = k a s.
Proof. reflexivity. Qed.

Lemma bind_returns {A B} (m : M A) (k : A -> M B) (s s' : State) (a : A) :
  m s = (Ret a, s') -> bind m k s = k a s'.
Proof. intros H. unfold bind. rewrite H. reflexivity. Qed.

Lemma bind_throws {A B} (m : M A) (k : A -> M B) (s s' : State) (e : JsError) :
  m s = (Throw e, s') -> bind m k s = (Throw e, s').
Proof. intros H. unfold bind. rewrite H. reflexivity. Qed.

Lemma read_defined (l : nat) (p : Prediction) (s : State) :
  st_heap s !! l = Some p -> read l s = (Ret p, s).
Proof. intros H. unfold read. rewrite H. reflexivity. Qed.

(** ** Backoff *)

(** Powers of two. *)

Lemma pow2_pos (z : Z) : (0 < 2 ^ z)%Q.
Proof. apply Qpower_0_lt. reflexivity. Qed.

Lemma pow2_add (a b : Z) : (2 ^ (a + b) == 2 ^ a * 2 ^ b)%Q.
Proof. apply Qpower_plus. discriminate. Qed.

Lemma pow2_le (a b : Z) : a <= b -> (2 ^ a <= 2 ^ b)%Q.
Proof. intros H. apply Qpower_le_compat_l; [exact H | discriminate]. Qed.

Lemma pow2_lt (a b : Z) : a < b -> (2 ^ a < 2 ^ b)%Q.
Proof. intros H. apply Qpower_lt_compat_l; [exact H | reflexivity]. Qed.

Lemma pow2_lt_inv (a b : Z) : (2 ^ a < 2 ^ b)%Q -> a < b.
Proof. intros H. eapply Qpower_lt_compat_l_inv; [exact H | reflexivity]. Qed.

Lemma pow2_Z (z : Z) : 0 <= z -> (inject_Z (2 ^ z) == 2 ^ z)%Q.
Proof. intros H. apply (Zpower_Qpower 2 z H). Qed.

(** A multiple of [2^t] is a multiple of [2^u] for [u <= t]. *)
Lemma multiple_of_finer (G t u : Z) :
  u <= t -> (inject_Z (G * 2 ^ (t - u)) * 2 ^ u == inject_Z G * 2 ^ t)%Q.
Proof.
  intros H. rewrite inject_Z_mult, pow2_Z by lia.
  rewrite <- Qmult_assoc, <- pow2_add.
  replace (t - u + u) with t by lia. reflexivity.
Qed.

(** The binade of a positive rational. *)

Lemma Qlog2_spec (q : Q) :
  (0 < q)%Q -> (2 ^ Qlog2 q <= q)%Q /\ (q < 2 ^ (Qlog2 q + 1))%Q.
Proof.
  intros Hq. destruct q as [a b].
  assert (Ha : 0 < a) by (unfold Qlt in Hq; simpl in Hq; lia).
  destruct (Z.log2_spec a Ha) as [Ha1 Ha2].
  destruct (Z.log2_spec (Z.pos b) (Pos2Z.is_pos b)) as [Hb1 Hb2].
  set (la := Z.log2 a) in *. set (lb := Z.log2 (Z.pos b)) in *.
  assert (Hla : 0 <= la) by apply Z.log2_nonneg.
  assert (Hlb : 0 <= lb) by apply Z.log2_nonneg.
  assert (HA1 : (2 ^ la <= inject_Z a)%Q)
    by (rewrite <- pow2_Z by lia; rewrite <- Zle_Qle; exact Ha1).
  assert (HA2 : (inject_Z a < 2 ^ (la + 1))%Q).
  { rewrite <- pow2_Z by lia. rewrite <- Zlt_Qlt.
    replace (la + 1) with (Z.succ la) by lia. exact Ha2. }
  assert (HB1 : (2 ^ lb <= inject_Z (Z.pos b))%Q)
    by (rewrite <- pow2_Z by lia; rewrite <- Zle_Qle; exact Hb1).
  assert (HB2 : (inject_Z (Z.pos b) < 2 ^ (lb + 1))%Q).
  { rewrite <- pow2_Z by lia. rewrite <- Zlt_Qlt.
    replace (lb + 1) with (Z.succ lb) by lia. exact Hb2. }
  assert (HB : (0 < inject_Z (Z.pos b))%Q) by reflexivity.
  assert (Hup : (a # b < 2 ^ (la - lb + 1))%Q).
  { rewrite (Qmake_Qdiv a b). apply Qlt_shift_div_r; [exact HB |].
    eapply Qlt_le_trans; [exact HA2 |].
    replace (la + 1) with ((la - lb + 1) + lb) by lia. rewrite pow2_add.
    apply Qmult_le_l; [apply pow2_pos | exact HB1]. }
  assert (Hlo : (2 ^ (la - lb - 1) < a # b)%Q).
  { rewrite (Qmake_Qdiv a b). apply Qlt_shift_div_l; [exact HB |].
    eapply Qlt_le_trans; [| exact HA1].
    replace la with ((la - lb - 1) + (lb + 1)) at 2 by lia. rewrite pow2_add.
    apply Qmult_lt_l; [apply pow2_pos | exact HB2]. }
  unfold Qlog2. cbn [Qnum Qden]. fold la lb.
  destruct (Qle_bool (2 ^ (la - lb)) (a # b)) eqn:Hc.
  - apply Qle_bool_iff in Hc. split; assumption.
  - assert (Hlt : (a # b < 2 ^ (la - lb))%Q).
    { apply Qnot_le_lt. intros Hle. apply Qle_bool_iff in Hle. congruence. }
    split; [apply Qlt_le_weak; exact Hlo |].
    replace (la - lb - 1 + 1) with (la - lb) by lia. exact Hlt.
Qed.

Lemma Qabs_nonneg_id (q : Q) : (0 <= q)%Q -> Qabs q = q.
Proof.
  destruct q as [a b]. unfold Qle, Qabs. cbn. intros H.
  rewrite Z.abs_eq by lia. reflexivity.
Qed.

Lemma ulp_exponent_below (x : Q) (k : Z) :
  (0 < x)%Q -> (x < 2 ^ (k + 53))%Q -> -1074 <= k -> ulp_exponent x <= k.
Proof.
  intros Hx Hlt Hk. unfold ulp_exponent.
  rewrite (Qabs_nonneg_id x) by (apply Qlt_le_weak; exact Hx).
  destruct (Qlog2_spec x Hx) as [Hlo _].
  assert (Qlog2 x < k + 53)
    by (apply pow2_lt_inv; eapply Qle_lt_trans; [exact Hlo | exact Hlt]).
  lia.
Qed.

(** Rounding to an integer. *)

Lemma round_half_even_le (q : Q) (K : Z) :
  (q <= inject_Z K)%Q -> round_half_even q <= K.
Proof.
  intros H. unfold round_half_even.
  pose proof (Qfloor_le q) as Hf.
  assert (Hfk : Qfloor q <= K)
    by (rewrite Zle_Qle; eapply Qle_trans; [exact Hf | exact H]).
  assert (Hstep : (1 # 2 <= q - inject_Z (Qfloor q))%Q -> Qfloor q + 1 <= K).
  { intros Hd. assert (Qfloor q < K); [| lia].
    rewrite Zlt_Qlt. eapply Qlt_le_trans; [| exact H]. lra. }
  destruct (Qcompare_spec (q - inject_Z (Qfloor q)) (1 # 2)) as [He | Hl | Hg].
  - destruct (Z.even (Qfloor q)); [exact Hfk | apply Hstep; rewrite He; apply Qle_refl].
  - exact Hfk.
  - apply Hstep. apply Qlt_le_weak. exact Hg.
Qed.

Lemma round_half_even_ge (q : Q) (K : Z) :
  (inject_Z K <= q)%Q -> K <= round_half_even q.
Proof.
  intros H. unfold round_half_even.
  assert (Hfk : K <= Qfloor q).
  { rewrite <- (Qfloor_Z K). apply Qfloor_resp_le. exact H. }
  destruct (q - inject_Z (Qfloor q) ?= 1 # 2)%Q;
    [destruct (Z.even (Qfloor q)) | |]; lia.
Qed.

(** Rounding to a double does not cross a double. *)

(** Rounding a positive [x] that lies at or below a multiple [g] of
    [2^t] gives a double at or below [g], when [x] is below [2^(t+53)]
    (so that the doubles around [x] are at least as fine as [2^t]). *)
Lemma round64_upper (x g : Q) (G t : Z) :
  (0 < x)%Q -> (x <= g)%Q -> (g == inject_Z G * 2 ^ t)%Q ->
  -1074 <= t -> (x < 2 ^ (t + 53))%Q -> (g < 2 ^ 1024)%Q ->
  exists v, round64 x = Some v /\ (0 <= v)%Q /\ (v <= g)%Q.
Proof.
  intros Hx Hxg Hg Ht Hfine Hmax.
  pose proof (ulp_exponent_below x t Hx Hfine Ht) as Hu.
  unfold round64.
  assert (Hnz : Qeq_bool x 0 = false).
  { destruct (Qeq_bool x 0) eqn:Hz; [| reflexivity].
    apply Qeq_bool_iff in Hz. rewrite Hz in Hx. discriminate. }
  rewrite Hnz. cbv zeta.
  set (u := ulp_exponent x) in *.
  pose proof (pow2_pos u) as Hpu.
  set (m := round_half_even (x / 2 ^ u)).
  assert (Hm0 : 0 <= m).
  { apply round_half_even_ge. apply Qle_shift_div_l; [exact Hpu |].
    rewrite Qmult_0_l. apply Qlt_le_weak. exact Hx. }
  assert (HmK : m <= G * 2 ^ (t - u)).
  { apply round_half_even_le. apply Qle_shift_div_r; [exact Hpu |].
    rewrite (multiple_of_finer G t u Hu), <- Hg. exact Hxg. }
  assert (Hv0 : (0 <= inject_Z m * 2 ^ u)%Q).
  { apply Qmult_le_0_compat; [| apply Qlt_le_weak; exact Hpu].
    change 0%Q with (inject_Z 0). rewrite <- Zle_Qle. exact Hm0. }
  assert (Hvg : (inject_Z m * 2 ^ u <= g)%Q).
  { rewrite Hg, <- (multiple_of_finer G t u Hu).
    apply Qmult_le_compat_r; [| apply Qlt_le_weak; exact Hpu].
    rewrite <- Zle_Qle. exact HmK. }
  rewrite (Qabs_nonneg_id _ Hv0).
  destruct (Qle_bool (2 ^ 1024) (inject_Z m * 2 ^ u)) eqn:Hov.
  - apply Qle_bool_iff in Hov. exfalso.
    apply (Qlt_irrefl (2 ^ 1024)).
    eapply Qle_lt_trans; [exact Hov |]. eapply Qle_lt_trans; [exact Hvg | exact Hmax].
  - eexists. split; [reflexivity |]. split; assumption.
Qed.

(** Rounding an [x] that lies at or above a positive double [g] gives a
    double at or above [g]. *)
Lemma round64_lower (x g v : Q) (G t : Z) :
  (0 < g)%Q -> (g <= x)%Q -> (g == inject_Z G * 2 ^ t)%Q ->
  -1074 <= t -> G <= 2 ^ 53 ->
  round64 x = Some v -> (g <= v)%Q.
Proof.
  intros Hg0 Hgx Hg Ht HG Hr.
  assert (Hx : (0 < x)%Q) by (eapply Qlt_le_trans; [exact Hg0 | exact Hgx]).
  unfold round64 in Hr.
  assert (Hnz : Qeq_bool x 0 = false).
  { destruct (Qeq_bool x 0) eqn:Hz; [| reflexivity].
    apply Qeq_bool_iff in Hz. rewrite Hz in Hx. discriminate. }
  rewrite Hnz in Hr. cbv zeta in Hr.
  destruct (Qle_bool _ _) in Hr; [discriminate |].
  injection Hr as <-.
  pose proof (pow2_pos (ulp_exponent x)) as Hpu.
  destruct (Z_le_gt_dec (ulp_exponent x) t) as [Hu | Hu].
  - rewrite Hg, <- (multiple_of_finer G t _ Hu).
    apply Qmult_le_compat_r; [| apply Qlt_le_weak; exact Hpu].
    rewrite <- Zle_Qle. apply round_half_even_ge.
    apply Qle_shift_div_l; [exact Hpu |].
    rewrite (multiple_of_finer G t _ Hu), <- Hg. exact Hgx.
  - assert (Hue : ulp_exponent x = Qlog2 x - 52).
    { unfold ulp_exponent in *.
      rewrite (Qabs_nonneg_id x) in * by (apply Qlt_le_weak; exact Hx). lia. }
    destruct (Qlog2_spec x Hx) as [Hlo _].
    apply Qle_trans with (y := (2 ^ (ulp_exponent x + 52))%Q).
    + rewrite Hg. apply Qle_trans with (y := (2 ^ 53 * 2 ^ t)%Q).
      * apply Qmult_le_compat_r; [| apply Qlt_le_weak; apply pow2_pos].
        rewrite <- (pow2_Z 53) by lia. rewrite <- Zle_Qle. exact HG.
      * rewrite <- pow2_add. apply pow2_le. lia.
    + rewrite (Z.add_comm _ 52), pow2_add.
      apply Qmult_le_compat_r; [| apply Qlt_le_weak; exact Hpu].
      rewrite <- (pow2_Z 52) by lia. rewrite <- Zle_Qle.
      apply round_half_even_ge. apply Qle_shift_div_l; [exact Hpu |].
      rewrite (pow2_Z 52) by lia. rewrite <- pow2_add.
      replace (52 + ulp_exponent x) with (Qlog2 x) by lia. exact Hlo.
Qed.

(** A positive double is its own rounding. *)
Lemma round64_exact (x : Q) (G t : Z) :
  (0 < x)%Q -> (x == inject_Z G * 2 ^ t)%Q ->
  -1074 <= t -> G < 2 ^ 53 -> (x < 2 ^ 1024)%Q ->
  exists v, round64 x = Some v /\ (v == x)%Q.
Proof.
  intros Hx Hg Ht HG Hmax.
  assert (Hfine : (x < 2 ^ (t + 53))%Q).
  { rewrite Hg, (Z.add_comm t 53), pow2_add.
    apply Qmult_lt_compat_r; [apply pow2_pos |].
    rewrite <- (pow2_Z 53) by lia. rewrite <- Zlt_Qlt. exact HG. }
  destruct (round64_upper x x G t Hx (Qle_refl x) Hg Ht Hfine Hmax)
    as (v & Hv & _ & Hle).
  exists v. split; [exact Hv |].
  apply Qle_antisym; [exact Hle |].
  apply (round64_lower x x v G t Hx (Qle_refl x) Hg Ht); [lia | exact Hv].
Qed.

(** The backoff in doubles. *)

Lemma scaled_below (K k n : Z) :
  K < 2 ^ k -> 0 <= k -> n + k <= 1024 ->
  (inject_Z K * 2 ^ n < 2 ^ 1024)%Q.
Proof.
  intros HK Hk Hn.
  apply Qlt_le_trans with (y := (2 ^ k * 2 ^ n)%Q).
  - apply Qmult_lt_compat_r; [apply pow2_pos |].
    rewrite <- (pow2_Z k) by lia. rewrite <- Zlt_Qlt. exact HK.
  - rewrite <- pow2_add. apply pow2_le. lia.
Qed.

Lemma scaled_pos (K n : Z) : 0 < K -> (0 < inject_Z K * 2 ^ n)%Q.
Proof.
  intros HK. apply Qmult_lt_0_compat; [| apply pow2_pos].
  change 0%Q with (inject_Z 0). rewrite <- Zlt_Qlt. exact HK.
Qed.

Lemma double_backoff_value (n : Z) :
  0 <= n <= 1014 ->
  exists backoff,
    double_backoff n 1000 = Some backoff /\ (backoff == 1000 * 2 ^ n)%Q.
Proof.
  intros Hn. unfold double_backoff.
  destruct (round64_exact (2 ^ n) 1 n) as (p & Hp & Hpe);
    [apply pow2_pos | symmetry; apply Qmult_1_l | lia | reflexivity
    | apply pow2_lt; lia |].
  rewrite Hp. cbn [mbind option_bind].
  destruct (round64_exact (1000 * p) 1000 n) as (b & Hb & Hbe).
  - rewrite Hpe. apply (scaled_pos 1000 n). lia.
  - rewrite Hpe. reflexivity.
  - lia.
  - reflexivity.
  - rewrite Hpe. apply (scaled_below 1000 10 n); [reflexivity | lia | lia].
  - exists b. split; [exact Hb |]. rewrite Hbe, Hpe. reflexivity.
Qed.

Lemma double_jitter_range (n : Z) (backoff r : Q) :
  0 <= n <= 1014 -> (backoff == 1000 * 2 ^ n)%Q ->
  (0 <= r)%Q -> (r < 1)%Q ->
  exists jitter,
    double_jitter backoff r = Some jitter
    /\ (0 <= jitter)%Q /\ (jitter <= 500 * 2 ^ n)%Q.
Proof.
  intros Hn Hb Hr0 Hr1. unfold double_jitter.
  assert (Hhalf : (backoff / 2 == inject_Z 500 * 2 ^ n)%Q).
  { rewrite Hb. change (inject_Z 500) with 500%Q. field. }
  destruct (round64_exact (backoff / 2) 500 n) as (h & Hh & Hhe).
  - rewrite Hhalf. apply (scaled_pos 500 n). lia.
  - exact Hhalf.
  - lia.
  - reflexivity.
  - rewrite Hhalf. apply (scaled_below 500 9 n); [reflexivity | lia | lia].
  - rewrite Hh. cbn [mbind option_bind].
    assert (Hhv : (h == inject_Z 500 * 2 ^ n)%Q) by (rewrite Hhe; exact Hhalf).
    assert (Hhpos : (0 < h)%Q) by (rewrite Hhv; apply (scaled_pos 500 n); lia).
    destruct (Qeq_bool r 0) eqn:Hz.
    + apply Qeq_bool_iff in Hz.
      assert (Hx : Qeq_bool (r * h) 0 = true)
        by (apply Qeq_bool_iff; rewrite Hz; ring).
      exists 0%Q. unfold round64. rewrite Hx.
      split; [reflexivity |]. split; [apply Qle_refl |].
      apply Qlt_le_weak. apply (scaled_pos 500 n). lia.
    + assert (Hrpos : (0 < r)%Q).
      { apply Qle_lt_or_eq in Hr0. destruct Hr0 as [H | H]; [exact H |].
        exfalso. symmetry in H. apply Qeq_bool_iff in H. congruence. }
      destruct (round64_upper (r * h) h 500 n) as (j & Hj & Hj0 & Hjh).
      * apply Qmult_lt_0_compat; assumption.
      * rewrite <- (Qmult_1_l h) at 2.
        apply Qmult_le_compat_r; apply Qlt_le_weak; assumption.
      * exact Hhv.
      * lia.
      * apply Qle_lt_trans with (y := h).
        -- rewrite <- (Qmult_1_l h) at 2.
           apply Qmult_le_compat_r; apply Qlt_le_weak; assumption.
        -- rewrite Hhv, (Z.add_comm n 53), pow2_add.
           apply Qmult_lt_compat_r; [apply pow2_pos | reflexivity].
      * rewrite Hhv. apply (scaled_below 500 9 n); [reflexivity | lia | lia].
      * exists j. split; [exact Hj |]. split; [exact Hj0 |].
        rewrite Hhv in Hjh. exact Hjh.
Qed.

(** The delay in doubles, for retries 0 to 1013. *)
Lemma double_backoffTime_range (n : Z) (r : Q) :
  0 <= n <= 1013 -> (0 <= r)%Q -> (r < 1)%Q ->
  exists backoff jitter delay,
    double_backoff n 1000 = Some backoff
    /\ (backoff == 1000 * 2 ^ n)%Q
    /\ double_jitter backoff r = Some jitter
    /\ (0 <= jitter)%Q /\ (jitter <= 500 * 2 ^ n)%Q
    /\ round64 (backoff + jitter) = Some delay
    /\ double_backoffTime n 1000 r = Some delay
    /\ (1000 * 2 ^ n <= delay)%Q
    /\ (delay <= 1000 * 2 ^ n + 500 * 2 ^ n)%Q.
Proof.
  intros Hn Hr0 Hr1.
  destruct (double_backoff_value n) as (b & Hb & Hbe); [lia |].
  destruct (double_jitter_range n b r) as (j & Hj & Hj0 & Hjh);
    [lia | exact Hbe | exact Hr0 | exact Hr1 |].
  pose proof (scaled_pos 1000 n ltac:(lia)) as Hbpos.
  change (inject_Z 1000) with 1000%Q in Hbpos.
  assert (Hsum : (1000 * 2 ^ n + 500 * 2 ^ n == inject_Z 1500 * 2 ^ n)%Q)
    by (change (inject_Z 1500) with 1500%Q; ring).
  assert (Hlo : (1000 * 2 ^ n <= b + j)%Q).
  { rewrite Hbe. rewrite <- (Qplus_0_r (1000 * 2 ^ n)) at 1.
    apply Qplus_le_r. exact Hj0. }
  assert (Hhi : (b + j <= inject_Z 1500 * 2 ^ n)%Q).
  { rewrite <- Hsum, Hbe. apply Qplus_le_r. exact Hjh. }
  destruct (round64_upper (b + j) (inject_Z 1500 * 2 ^ n) 1500 n)
    as (d & Hd & _ & Hdh).
  - eapply Qlt_le_trans; [exact Hbpos | exact Hlo].
  - exact Hhi.
  - reflexivity.
  - lia.
  - eapply Qle_lt_trans; [exact Hhi |].
    rewrite (Z.add_comm n 53), pow2_add.
    apply Qmult_lt_compat_r; [apply pow2_pos | reflexivity].
  - apply (scaled_below 1500 11 n); [reflexivity | lia | lia].
  - exists b, j, d.
    repeat (split; [first [assumption | reflexivity] |]).
    split.
    + unfold double_backoffTime. rewrite Hb. cbn [mbind option_bind].
      rewrite Hj. cbn [mbind option_bind]. exact Hd.
    + split; [| rewrite Hsum; exact Hdh].
      apply (round64_lower (b + j) (1000 * 2 ^ n) d 1000 n);
        [exact Hbpos | exact Hlo | reflexivity | lia | vm_compute; discriminate
        | exact Hd].
Qed.


(** ** Construction *)

(** C9: with no credential argument and no [WAVESPEED_API_KEY] in the
    environment, the constructor throws the configuration error and
    leaves the machine state as it was: no fetch has been issued. *)
Theorem constructor_without_key (E : Env) (penv : option (gmap string string))
    (options : ClientOptions) (s : State) :
  (forall vars, penv = Some vars -> vars !! "WAVESPEED_API_KEY" = None) ->
  constructor E penv None options s
  = (Throw (Error "API key is required. Provide it as a parameter or set the WAVESPEED_API_KEY environment variable."), s).
Proof.
  intros Hno. unfold constructor, getEnvVar.
  destruct penv as [vars |]; [rewrite (Hno vars eq_refl) |]; reflexivity.
Qed.

(** ** The retry loop *)

Lemma attempts_app (a b : list Event) :
  attempts (a ++ b) = (attempts a + attempts b)%nat.
Proof.
  induction a as [| e a IH]; [reflexivity |].
  destruct e; simpl; rewrite IH; reflexivity.
Qed.

Lemma of_nat_le (a b : nat) : (of_nat a <= of_nat b)%Q <-> (a <= b)%nat.
Proof.
  unfold of_nat. rewrite <- Zle_Qle. lia.
Qed.

Lemma budget_spent (m : Q) (N rc : nat) :
  (m == of_nat N)%Q -> Qle_bool m (of_nat rc) = (N <=? rc)%nat.
Proof.
  intros Hm. apply eq_true_iff_eq.
  rewrite Qle_bool_iff, Hm, of_nat_le, Nat.leb_le. reflexivity.
Qed.

Section Rounds.

Variable E : Env.
Variable c : WaveSpeed.
Variable path : string.
Variable options : RequestOptions.
Variable url : string.
Hypothesis url_ok : env_URL E (strip_slash path) (baseUrl c) = Some url.

Lemma fetch_loop_S (fuel rc : nat) :
  fetch_loop E (S fuel) c path options rc
  = (emit (EvSetTimeout (effective_timeout c options)) ;;
     let* step :=
       try_finally
         (try_catch (attempt E c path options rc) (recover E options rc))
         (emit EvClearTimeout) in
     match step with
     | Return response => ret response
     | Continue rc' => fetch_loop E fuel c path options rc'
     end).
Proof. reflexivity. Qed.

(** A round whose response is handed back: one timer, one fetch, the
    timer cleared. *)
Lemma round_returns (fuel rc : nat) (s : State) (r : Response) :
  env_fetch E (st_fetches s) url (fetch_init c options) = Resolved r ->
  ok r || negb (shouldRetry options r)
    || Qle_bool (effective_maxRetries options) (of_nat rc) = true ->
  fetch_loop E (S fuel) c path options rc s
  = (Ret r,
     {| st_trace := st_trace s
          ++ [EvSetTimeout (effective_timeout c options);
              EvFetch url (fetch_init c options); EvClearTimeout];
        st_fetches := S (st_fetches s); st_randoms := st_randoms s;
        st_heap := st_heap s; st_next := st_next s |}).
Proof.
  intros Hf Hstop. rewrite fetch_loop_S.
  unfold bind, try_finally, try_catch, attempt, new_URL, bind, emit, fetch,
    ret; simpl.
  rewrite url_ok; simpl. rewrite Hf, Hstop; simpl.
  rewrite <- !app_assoc. reflexivity.
Qed.

(** A round whose response is retried: one fetch, one value of
    [Math.random()], and the loop goes on with the counter raised. *)
Lemma round_retries (fuel rc : nat) (s : State) (r : Response) :
  env_fetch E (st_fetches s) url (fetch_init c options) = Resolved r ->
  ok r || negb (shouldRetry options r)
    || Qle_bool (effective_maxRetries options) (of_nat rc) = false ->
  exists s',
    fetch_loop E (S fuel) c path options rc s
    = fetch_loop E fuel c path options (S rc) s'
    /\ st_fetches s' = S (st_fetches s)
    /\ attempts (st_trace s') = S (attempts (st_trace s))
    /\ st_heap s' = st_heap s /\ st_next s' = st_next s.
Proof.
  intros Hf Hgo. rewrite fetch_loop_S.
  unfold bind, try_finally, try_catch, attempt, new_URL, bind, emit, fetch,
    ret; simpl.
  rewrite url_ok; simpl. rewrite Hf, Hgo.
  unfold retry_after, bind, _getBackoffTime, bind, Math_random, console_warn,
    emit, ret; simpl.
  destruct (env_console E); simpl; eexists; (split; [reflexivity |]); simpl;
    rewrite !attempts_app; simpl; repeat split; lia.
Qed.

Lemma rate_limited_retry (r : Response) :
  resp_status r = 429 -> ok r = false /\ shouldRetry options r = true.
Proof.
  intros H. unfold ok, shouldRetry. rewrite H. split; reflexivity.
Qed.

(** When every answer is a 429 and the budget is the natural number
    [N], a loop that has used [rc] retries makes [N - rc] more and
    returns the answer of the last attempt. *)
Lemma rate_limited_loop (N k : nat) :
  (forall i, exists r,
      env_fetch E i url (fetch_init c options) = Resolved r
      /\ resp_status r = 429) ->
  (effective_maxRetries options == of_nat N)%Q ->
  forall (rc fuel : nat) (s : State),
    (rc + k = N)%nat -> (k < fuel)%nat ->
    exists r s',
      fetch_loop E fuel c path options rc s = (Ret r, s')
      /\ env_fetch E (st_fetches s + k) url (fetch_init c options) = Resolved r
      /\ st_fetches s' = (st_fetches s + k + 1)%nat
      /\ attempts (st_trace s') = (attempts (st_trace s) + k + 1)%nat
      /\ st_heap s' = st_heap s.
Proof.
  intros Hall Hm. induction k as [| k IH]; intros rc fuel s Hrc Hfuel;
    (destruct fuel as [| fuel]; [lia |]);
    destruct (Hall (st_fetches s)) as (r & Hr & H429);
    destruct (rate_limited_retry r H429) as [Hok Hre].
  - exists r. eexists. split.
    + apply round_returns; [exact Hr |].
      rewrite (budget_spent _ N rc Hm).
      replace (N <=? rc)%nat with true by (symmetry; apply Nat.leb_le; lia).
      apply orb_true_r.
    + cbn [st_fetches st_trace st_heap]. rewrite attempts_app, Nat.add_0_r.
      cbn. repeat split; [exact Hr | lia | lia].
  - destruct (round_retries fuel rc s r Hr) as (s1 & Hstep & Hf1 & Ha1 & Hh1 & _).
    { rewrite Hok, Hre, (budget_spent _ N rc Hm).
      replace (N <=? rc)%nat with false by (symmetry; apply Nat.leb_gt; lia).
      reflexivity. }
    destruct (IH (S rc) fuel s1) as (r' & s' & Hrun & Hlast & Hf & Ha & Hh);
      [lia | lia |].
    exists r', s'. rewrite Hstep. split; [exact Hrun |].
    rewrite Hf1 in Hlast, Hf. rewrite Ha1 in Ha. rewrite Hh1 in Hh.
    replace (st_fetches s + S k)%nat with (S (st_fetches s) + k)%nat by lia.
    repeat split; [exact Hlast | lia | lia | exact Hh].
Qed.

End Rounds.

Lemma override_nonzero (options : RequestOptions) (q n : Q) :
  opt_maxRetries options = Some q -> (q == n)%Q -> ~ (n == 0)%Q ->
  (effective_maxRetries options == n)%Q.
Proof.
  intros Ho Hq Hn. unfold effective_maxRetries, num_or. rewrite Ho.
  destruct (Qeq_bool q 0) eqn:Hz; [| exact Hq].
  apply Qeq_bool_iff in Hz. rewrite Hq in Hz. contradiction.
Qed.

Lemma override_zero (options : RequestOptions) (q : Q) :
  opt_maxRetries options = Some q -> (q == 0)%Q ->
  effective_maxRetries options = 3%Q.
Proof.
  intros Ho Hq. unfold effective_maxRetries, num_or. rewrite Ho.
  apply Qeq_bool_iff in Hq. rewrite Hq. reflexivity.
Qed.

(** C1: when every attempt is answered with HTTP 429 and the call
    overrides the retry budget with 2, [fetchWithTimeout] calls [fetch]
    exactly 3 times and returns (does not throw) the third 429
    response. *)
Theorem retry_cap_on_429 (E : Env) (c : WaveSpeed) (path url : string)
    (options : RequestOptions) (q : Q) (fuel : nat) (s : State) :
  env_URL E (strip_slash path) (baseUrl c) = Some url ->
  (forall i, exists r,
      env_fetch E i url (fetch_init c options) = Resolved r
      /\ resp_status r = 429) ->
  opt_maxRetries options = Some q -> (q == 2)%Q ->
  (3 <= fuel)%nat ->
  exists r s',
    fetchWithTimeout E fuel c path options s = (Ret r, s')
    /\ resp_status r = 429
    /\ env_fetch E (st_fetches s + 2) url (fetch_init c options) = Resolved r
    /\ st_fetches s' = (st_fetches s + 3)%nat
    /\ attempts (st_trace s') = (attempts (st_trace s) + 3)%nat.
Proof.
  intros Hurl Hall Ho Hq Hfuel.
  assert (Hm : (effective_maxRetries options == of_nat 2)%Q).
  { apply (override_nonzero options q); [exact Ho | exact Hq | discriminate]. }
  destruct (rate_limited_loop E c path options url Hurl 2 2 Hall Hm 0%nat fuel s)
    as (r & s' & Hrun & Hlast & Hf & Ha & _); [lia | lia |].
  exists r, s'. unfold fetchWithTimeout.
  destruct (Hall (st_fetches s + 2)%nat) as (r2 & Hr2 & H429).
  assert (r = r2) by congruence. subst r2.
  repeat split; [exact Hrun | exact H429 | exact Hlast | lia | lia].
Qed.

(** C10: a per-call [maxRetries] of 0 is falsy, so the budget of the
    call is the default 3; against a service that answers 429 to every
    attempt the call still makes 4 attempts (3 retries). *)
Theorem zero_override_keeps_default (E : Env) (c : WaveSpeed)
    (path url : string) (options : RequestOptions) (q : Q) (fuel : nat)
    (s : State) :
  opt_maxRetries options = Some q -> (q == 0)%Q ->
  effective_maxRetries options = 3%Q
  /\ (env_URL E (strip_slash path) (baseUrl c) = Some url ->
      (forall i, exists r,
          env_fetch E i url (fetch_init c options) = Resolved r
          /\ resp_status r = 429) ->
      (4 <= fuel)%nat ->
      exists r s',
        fetchWithTimeout E fuel c path options s = (Ret r, s')
        /\ resp_status r = 429
        /\ attempts (st_trace s') = (attempts (st_trace s) + 4)%nat).
Proof.
  intros Ho Hq. pose proof (override_zero options q Ho Hq) as Hm.
  split; [exact Hm |]. intros Hurl Hall Hfuel.
  assert (Hm' : (effective_maxRetries options == of_nat 3)%Q)
    by (rewrite Hm; reflexivity).
  destruct (rate_limited_loop E c path options url Hurl 3 3 Hall Hm' 0%nat fuel s)
    as (r & s' & Hrun & Hlast & _ & Ha & _); [lia | lia |].
  exists r, s'. unfold fetchWithTimeout.
  destruct (Hall (st_fetches s + 3)%nat) as (r3 & Hr3 & H429).
  assert (r = r3) by congruence. subst r3.
  repeat split; [exact Hrun | exact H429 | lia].
Qed.

(** ** Which statuses are retried *)

Lemma shouldRetry_server_error (options : RequestOptions) (r : Response) :
  500 <= resp_status r <= 599 ->
  shouldRetry options r = String.eqb (effective_method options) "GET".
Proof.
  intros [Hlo Hhi]. unfold shouldRetry.
  replace (resp_status r =? 429) with false by (symmetry; apply Z.eqb_neq; lia).
  replace (500 <=? resp_status r) with true by (symmetry; apply Z.leb_le; lia).
  simpl. apply andb_true_r.
Qed.

(** C2: a 429 is retryable whatever the method; a 5xx is retryable
    exactly when the method of the call is GET.  A GET answered 503 and
    then 200 makes 2 attempts and returns the 200 response; a POST
    answered 503 makes 1 attempt and returns the 503 response. *)
Theorem method_sensitive_retry (E : Env) (c : WaveSpeed) (path url : string)
    (options : RequestOptions) (s : State) :
  (forall r, resp_status r = 429 -> shouldRetry options r = true)
  /\ (forall r, 500 <= resp_status r <= 599 ->
        (shouldRetry options r = true <-> effective_method options = "GET"))
  /\ (forall r1 r2 fuel,
        env_URL E (strip_slash path) (baseUrl c) = Some url ->
        effective_method options = "GET" ->
        (0 < effective_maxRetries options)%Q ->
        env_fetch E (st_fetches s) url (fetch_init c options) = Resolved r1 ->
        resp_status r1 = 503 ->
        env_fetch E (S (st_fetches s)) url (fetch_init c options) = Resolved r2 ->
        resp_status r2 = 200 ->
        (2 <= fuel)%nat ->
        exists s',
          fetchWithTimeout E fuel c path options s = (Ret r2, s')
          /\ st_fetches s' = (st_fetches s + 2)%nat
          /\ attempts (st_trace s') = (attempts (st_trace s) + 2)%nat)
  /\ (forall r fuel,
        env_URL E (strip_slash path) (baseUrl c) = Some url ->
        effective_method options = "POST" ->
        env_fetch E (st_fetches s) url (fetch_init c options) = Resolved r ->
        resp_status r = 503 ->
        (1 <= fuel)%nat ->
        exists s',
          fetchWithTimeout E fuel c path options s = (Ret r, s')
          /\ st_fetches s' = (st_fetches s + 1)%nat
          /\ attempts (st_trace s') = (attempts (st_trace s) + 1)%nat).
Proof.
  split; [| split; [| split]].
  - intros r H. apply rate_limited_retry. exact H.
  - intros r H. rewrite (shouldRetry_server_error options r H).
    apply String.eqb_eq.
  - intros r1 r2 fuel Hurl Hget Hm H1 Hs1 H2 Hs2 Hfuel.
    destruct fuel as [| [| fuel]]; [lia | lia |].
    unfold fetchWithTimeout.
    destruct (round_retries E c path options url Hurl (S fuel) 0%nat s r1 H1)
      as (s1 & Hstep & Hf1 & Ha1 & _).
    { assert (Hsr : shouldRetry options r1 = true).
      { rewrite shouldRetry_server_error by lia. rewrite Hget. reflexivity. }
      unfold ok. rewrite Hsr, Hs1. simpl.
      destruct (Qle_bool (effective_maxRetries options) (of_nat 0)) eqn:Hle;
        [| reflexivity].
      apply Qle_bool_iff in Hle. change (of_nat 0) with 0%Q in Hle. lra. }
    rewrite Hstep. eexists. split.
    + apply round_returns; [exact Hurl | rewrite Hf1; exact H2 |].
      unfold ok. rewrite Hs2. reflexivity.
    + cbn [st_fetches st_trace]. rewrite attempts_app, Ha1, Hf1. simpl.
      split; lia.
  - intros r fuel Hurl Hpost Hr Hs Hfuel.
    destruct fuel as [| fuel]; [lia |].
    unfold fetchWithTimeout. eexists. split.
    + apply round_returns; [exact Hurl | exact Hr |].
      rewrite shouldRetry_server_error by lia. rewrite Hpost.
      unfold ok. rewrite Hs. reflexivity.
    + cbn [st_fetches st_trace]. rewrite attempts_app. simpl. split; lia.
Qed.

(** ** What a transport call leaves alone *)

Lemma transport_frame_refl (init : FetchInit) (s : State) :
  transport_frame init s s.
Proof.
  repeat split. exists []. split; [symmetry; apply app_nil_r | constructor].
Qed.

Lemma transport_frame_trans (init : FetchInit) (s1 s2 s3 : State) :
  transport_frame init s1 s2 -> transport_frame init s2 s3 ->
  transport_frame init s1 s3.
Proof.
  intros (Hh1 & Hn1 & t1 & Ht1 & Hf1) (Hh2 & Hn2 & t2 & Ht2 & Hf2).
  repeat split; [congruence | congruence |].
  exists (t1 ++ t2)%list. split.
  - rewrite Ht2, Ht1. symmetry. apply app_assoc.
  - apply Forall_app. split; assumption.
Qed.

Section Framed.

Variable init : FetchInit.

Lemma framed_ret {A} (a : A) : framed init (ret a).
Proof. intros s o s' H. inversion H; subst. apply transport_frame_refl. Qed.

Lemma framed_throw {A} (e : JsError) : framed init (throw (A := A) e).
Proof. intros s o s' H. inversion H; subst. apply transport_frame_refl. Qed.

Lemma framed_out_of_fuel {A} : framed init (out_of_fuel (A := A)).
Proof. intros s o s' H. inversion H; subst. apply transport_frame_refl. Qed.

Lemma framed_bind {A B} (m : M A) (k : A -> M B) :
  framed init m -> (forall a, framed init (k a)) -> framed init (bind m k).
Proof.
  intros Hm Hk s o s' H. unfold bind in H.
  destruct (m s) as [[a | e | |] s1] eqn:Hms;
    try (inversion H; subst; eapply Hm; exact Hms).
  eapply transport_frame_trans; [eapply Hm; exact Hms | eapply Hk; exact H].
Qed.

Lemma framed_try_catch {A} (body : M A) (handler : JsError -> M A) :
  framed init body -> (forall e, framed init (handler e)) ->
  framed init (try_catch body handler).
Proof.
  intros Hb Hh s o s' H. unfold try_catch in H.
  destruct (body s) as [[a | e | |] s1] eqn:Hbs;
    try (inversion H; subst; eapply Hb; exact Hbs).
  eapply transport_frame_trans; [eapply Hb; exact Hbs | eapply Hh; exact H].
Qed.

Lemma framed_try_finally {A} (body : M A) (fin : M unit) :
  framed init body -> framed init fin -> framed init (try_finally body fin).
Proof.
  intros Hb Hf s o s' H. unfold try_finally in H.
  destruct (body s) as [[a | e | |] s1] eqn:Hbs;
    try (inversion H; subst; eapply Hb; exact Hbs);
    (eapply transport_frame_trans; [eapply Hb; exact Hbs |]);
    destruct (fin s1) as [o2 s2] eqn:Hfs; inversion H; subst;
    eapply Hf; exact Hfs.
Qed.

Lemma framed_emit (ev : Event) :
  (forall u i, ev = EvFetch u i -> i = init) -> framed init (emit ev).
Proof.
  intros Hev s o s' H. inversion H; subst.
  repeat split. exists [ev]. split; [reflexivity |].
  constructor; [exact Hev | constructor].
Qed.

Lemma framed_fetch (E : Env) (url : string) : framed init (fetch E url init).
Proof.
  intros s o s' H. unfold fetch in H.
  destruct (env_fetch E (st_fetches s) url init); inversion H; subst;
    repeat split; exists [EvFetch url init]; (split; [reflexivity |]);
    (constructor; [intros u i Hev; congruence | constructor]).
Qed.

Lemma framed_random (E : Env) : framed init (Math_random E).
Proof.
  intros s o s' H. inversion H; subst.
  repeat split. exists []. split; [symmetry; apply app_nil_r | constructor].
Qed.

End Framed.

Lemma retry_after_framed (E : Env) (init : FetchInit) (failure : string)
    (options : RequestOptions) (rc : nat) :
  framed init (retry_after E failure options rc).
Proof.
  unfold retry_after, _getBackoffTime, console_warn.
  repeat first
    [ apply framed_bind; [| intro]
    | apply framed_ret
    | apply framed_random
    | apply framed_emit; discriminate
    | destruct (env_console E) ].
Qed.

Lemma fetch_loop_framed (E : Env) (c : WaveSpeed) (path : string)
    (options : RequestOptions) (fuel rc : nat) :
  framed (fetch_init c options) (fetch_loop E fuel c path options rc).
Proof.
  revert rc. induction fuel as [| fuel IH]; intro rc.
  - apply framed_out_of_fuel.
  - rewrite fetch_loop_S.
    apply framed_bind; [apply framed_emit; discriminate | intros _].
    apply framed_bind.
    + apply framed_try_finally; [| apply framed_emit; discriminate].
      apply framed_try_catch.
      * unfold attempt, new_URL.
        apply framed_bind;
          [destruct (env_URL E _ _); [apply framed_ret | apply framed_throw] |].
        intro url. apply framed_bind; [apply framed_fetch | intro r].
        destruct (_ || _ || _); [apply framed_ret | apply retry_after_framed].
      * intro e. unfold recover.
        destruct (_ && _ && _); [apply retry_after_framed | apply framed_throw].
    + intros [r | rc']; [apply framed_ret | apply IH].
Qed.

(** ** The job record *)

Lemma get_prop_defined (v : JsVal) (k : string) :
  nullish v = false -> get_prop v k = ret (prop v k).
Proof. destruct v; simpl; intros H; (discriminate || reflexivity). Qed.

(** The constructor on a payload that has properties: one object is
    allocated, holding the fields read from the payload. *)
Lemma new_Prediction_defined (data : JsVal) (c : WaveSpeed) (s : State) :
  nullish data = false ->
  new_Prediction data c s
  = alloc {| p_id := prop data "id"; p_model := prop data "model";
             p_status := prop data "status"; p_input := prop data "input";
             p_outputs := js_or (prop data "outputs") (JArr []);
             p_urls := prop data "urls";
             p_has_nsfw_contents :=
               js_or (prop data "has_nsfw_contents") (JArr []);
             p_created_at := prop data "created_at";
             p_error := prop data "error";
             p_executionTime := prop data "executionTime";
             p_client := c |} s.
Proof.
  intros H. unfold new_Prediction.
  rewrite !(get_prop_defined data _ H). reflexivity.
Qed.

Lemma terminal_cases (status : JsVal) :
  terminal status = true <-> status = JStr "completed" \/ status = JStr "failed".
Proof.
  unfold terminal, str_eq. split.
  - destruct status; try discriminate. intros H.
    apply orb_true_iff in H. destruct H as [H | H];
      apply String.eqb_eq in H; subst; auto.
  - intros [-> | ->]; reflexivity.
Qed.

(** C4: on a job record whose status is [completed] or [failed],
    [wait] returns the reference it was called on and leaves the whole
    machine state as it was: no fetch, no timer, no field changed. *)
Theorem wait_terminal_is_noop (E : Env) (polls fuel this : nat) (s : State)
    (p : Prediction) :
  st_heap s !! this = Some p ->
  p_status p = JStr "completed" \/ p_status p = JStr "failed" ->
  wait E polls fuel this s = (Ret this, s).
Proof.
  intros Hp Hterm. apply terminal_cases in Hterm.
  unfold wait, bind, read. rewrite Hp, Hterm. reflexivity.
Qed.

(** One run of [reload] on a 2xx answer that carries a payload. *)
Lemma reload_defined (E : Env) (fuel this : nat) (s s1 : State)
    (old : Prediction) (r : Response) (data : JsVal) :
  st_heap s !! this = Some old ->
  fetchWithTimeout E fuel (p_client old)
    ("predictions/" ++ ToString E (p_id old) ++ "/result") no_options s
  = (Ret r, s1) ->
  ok r = true ->
  resp_json r = Some data ->
  nullish data = false ->
  nullish (prop data "data") = false ->
  let payload := prop data "data" in
  let snapshot :=
    {| p_id := prop payload "id"; p_model := prop payload "model";
       p_status := prop payload "status"; p_input := prop payload "input";
       p_outputs := js_or (prop payload "outputs") (JArr []);
       p_urls := prop payload "urls";
       p_has_nsfw_contents :=
         js_or (prop payload "has_nsfw_contents") (JArr []);
       p_created_at := prop payload "created_at";
       p_error := prop payload "error";
       p_executionTime := prop payload "executionTime";
       p_client := p_client old |} in
  exists s2,
    reload E fuel this s = (Ret this, s2)
    /\ st_heap s2 !! this = Some snapshot
    /\ read this s2 = (Ret snapshot, s2)
    /\ (forall l, l <> this -> l <> st_next s ->
         st_heap s2 !! l = st_heap s !! l)
    /\ st_trace s2 = st_trace s1 /\ st_fetches s2 = st_fetches s1.
Proof.
  intros Hold Hfetch Hok Hjson Hdata Hpayload payload snapshot.
  destruct (fetch_loop_framed E _ _ _ fuel 0%nat s _ s1 Hfetch)
    as (Hheap & Hnext & _).
  assert (Hthis : st_heap s1 !! this = Some old) by (rewrite Hheap; exact Hold).
  eexists. split.
  - unfold reload.
    rewrite (bind_returns _ _ _ _ _ (read_defined _ _ _ Hold)).
    rewrite (bind_returns _ _ _ _ _ Hfetch), Hok. cbn [negb].
    unfold json. rewrite Hjson, bind_ret.
    rewrite (get_prop_defined data "data" Hdata), bind_ret.
    rewrite (bind_returns _ _ _ _ _ (read_defined _ _ _ Hthis)).
    unfold bind. rewrite (new_Prediction_defined _ _ _ Hpayload).
    unfold alloc, read, assign, ret. cbn [st_heap st_next].
    rewrite lookup_insert_eq. reflexivity.
  - cbn [st_heap st_trace]. unfold read. cbn [st_heap].
    rewrite lookup_insert_eq.
    split; [reflexivity |]. split; [reflexivity |].
    split; [| split; reflexivity].
    intros l Hl Hn. rewrite lookup_insert_ne by congruence.
    rewrite lookup_insert_ne by congruence. rewrite Hheap. reflexivity.
Qed.

Lemma new_Prediction_nullish (data : JsVal) (c : WaveSpeed) (s : State) :
  nullish data = true -> exists e, new_Prediction data c s = (Throw e, s).
Proof.
  destruct data; try discriminate; intros _; eexists; reflexivity.
Qed.

(** C5: every [reload] that returns hands back the reference it was
    called on.  Its transport call returned a 2xx response whose JSON
    envelope carries a [data] payload, and the object behind the reference now holds
    exactly the fields of the snapshot the constructor builds from that
    payload: each field is replaced, none of the previous values is
    merged in.  Reading the original reference afterwards yields the
    snapshot; the other objects of the store are untouched. *)
Theorem reload_overwrites_in_place (E : Env) (fuel this l : nat)
    (s s2 : State) :
  reload E fuel this s = (Ret l, s2) ->
  l = this
  /\ exists (old : Prediction) (r : Response) (data : JsVal) (s1 : State),
       st_heap s !! this = Some old
       /\ fetchWithTimeout E fuel (p_client old)
            ("predictions/" ++ ToString E (p_id old) ++ "/result") no_options s
          = (Ret r, s1)
       /\ ok r = true /\ resp_json r = Some data
       /\ let payload := prop data "data" in
          let snapshot :=
            {| p_id := prop payload "id"; p_model := prop payload "model";
               p_status := prop payload "status";
               p_input := prop payload "input";
               p_outputs := js_or (prop payload "outputs") (JArr []);
               p_urls := prop payload "urls";
               p_has_nsfw_contents :=
                 js_or (prop payload "has_nsfw_contents") (JArr []);
               p_created_at := prop payload "created_at";
               p_error := prop payload "error";
               p_executionTime := prop payload "executionTime";
               p_client := p_client old |} in
          st_heap s2 !! this = Some snapshot
          /\ read this s2 = (Ret snapshot, s2)
          /\ (forall l', l' <> this -> l' <> st_next s ->
               st_heap s2 !! l' = st_heap s !! l').
Proof.
  intros Hrun. pose proof Hrun as Hrun0. unfold reload in Hrun.
  destruct (st_heap s !! this) as [old |] eqn:Hold;
    [| unfold bind, read in Hrun; rewrite Hold in Hrun; discriminate].
  rewrite (bind_returns _ _ _ _ _ (read_defined _ _ _ Hold)) in Hrun.
  destruct (fetchWithTimeout E fuel (p_client old)
              ("predictions/" ++ ToString E (p_id old) ++ "/result")
              no_options s) as [o s1] eqn:Hfetch.
  destruct o as [r | e | |];
    try (unfold bind in Hrun; rewrite Hfetch in Hrun; discriminate).
  rewrite (bind_returns _ _ _ _ _ Hfetch) in Hrun.
  destruct (ok r) eqn:Hok; cbn [negb] in Hrun; [| discriminate].
  unfold json in Hrun.
  destruct (resp_json r) as [data |] eqn:Hjson; [| discriminate].
  rewrite bind_ret in Hrun.
  destruct (nullish data) eqn:Hdata;
    [destruct data; discriminate |].
  rewrite (get_prop_defined data "data" Hdata), bind_ret in Hrun.
  destruct (fetch_loop_framed E _ _ _ fuel 0%nat s _ s1 Hfetch) as (Hheap & _).
  assert (Hthis : st_heap s1 !! this = Some old) by (rewrite Hheap; exact Hold).
  rewrite (bind_returns _ _ _ _ _ (read_defined _ _ _ Hthis)) in Hrun.
  destruct (nullish (prop data "data")) eqn:Hpayload.
  { destruct (new_Prediction_nullish _ (p_client old) s1 Hpayload) as [e He].
    rewrite (bind_throws _ _ _ _ _ He) in Hrun. discriminate. }
  destruct (reload_defined E fuel this s s1 old r data
              Hold Hfetch Hok Hjson Hdata Hpayload)
    as (s2' & Hre & Hsnap & Hread & Hother & _).
  rewrite Hrun0 in Hre. inversion Hre; subst.
  split; [reflexivity |]. exists old, r, data, s1.
  split; [first [exact Hold | reflexivity] |].
  split; [exact Hfetch |].
  split; [first [exact Hok | reflexivity] |].
  split; [first [exact Hjson | reflexivity] |].
  cbv zeta. split; [exact Hsnap |]. split; [exact Hread | exact Hother].
Qed.

(** ** Submission *)

Lemma num_neq_iff (v : JsVal) (n : Q) :
  num_neq v n = true <-> (forall q, v = JNum q -> ~ (q == n)%Q).
Proof.
  split.
  - intros H q -> Heq. simpl in H. apply Qeq_bool_iff in Heq.
    rewrite Heq in H. discriminate.
  - intros H. destruct v; try reflexivity. simpl.
    destruct (Qeq_bool q n) eqn:Heq; [| reflexivity].
    apply Qeq_bool_iff in Heq. destruct (H q eq_refl Heq).
Qed.

(** C6: when the transport call of [create] returns a 2xx response
    whose JSON envelope has a [code] that is not the number 200,
    [create] throws the creation error built from the code and the
    envelope; no job record is allocated. *)
Theorem create_rejects_application_code (E : Env) (fuel : nat) (c : WaveSpeed)
    (modelId : string) (input : JsVal) (options : option RequestOptions)
    (s s1 : State) (r : Response) (data : JsVal) :
  fetchWithTimeout E fuel c (create_url modelId options)
    (create_options input options) s = (Ret r, s1) ->
  ok r = true ->
  resp_json r = Some data ->
  nullish data = false ->
  (forall q, prop data "code" = JNum q -> ~ (q == 200)%Q) ->
  create E fuel c modelId input options s
  = (Throw (Error ("Failed to create prediction: "
                   ++ ToString E (prop data "code") ++ " " ++ ToString E data)),
     s1)
  /\ st_heap s1 = st_heap s /\ st_next s1 = st_next s.
Proof.
  intros Hfetch Hok Hjson Hdata Hcode.
  destruct (fetch_loop_framed E _ _ _ fuel 0%nat s _ s1 Hfetch)
    as (Hheap & Hnext & _).
  split; [| split; assumption].
  unfold create.
  rewrite (bind_returns _ _ _ _ _ Hfetch), Hok. cbn [negb].
  unfold json. rewrite Hjson, bind_ret.
  rewrite (get_prop_defined data "code" Hdata), bind_ret.
  apply num_neq_iff in Hcode. rewrite Hcode. reflexivity.
Qed.

(** ** Waiting *)

Lemma rhythm_app (a b : list Event) : rhythm (a ++ b) = (rhythm a ++ rhythm b)%list.
Proof.
  induction a as [| e a IH]; [reflexivity |].
  destruct e; simpl; rewrite IH; reflexivity.
Qed.

Section Polling.

Variable E : Env.
Variable c : WaveSpeed.
Variable this : nat.
Hypothesis url_total : forall path, exists url, env_URL E path (baseUrl c) = Some url.

(** One [reload] against a service that answers the next fetch at once
    with a status update. *)
Lemma reload_once (fuel : nat) (s : State) (p : Prediction) (r : Response)
    (done : bool) :
  st_heap s !! this = Some p -> p_client p = c ->
  (forall u init, env_fetch E (st_fetches s) u init = Resolved r) ->
  status_update r done ->
  exists s1 p1,
    reload E (S fuel) this s = (Ret this, s1)
    /\ st_fetches s1 = S (st_fetches s)
    /\ rhythm (st_trace s1) = (rhythm (st_trace s) ++ [Poll])%list
    /\ st_heap s1 !! this = Some p1 /\ p_client p1 = c
    /\ terminal (p_status p1) = done.
Proof.
  intros Hp Hc Hans (Hok & data & Hjson & Hdata & Hpayload & Hdone).
  destruct (url_total (strip_slash ("predictions/" ++ ToString E (p_id p) ++ "/result")))
    as [url Hurl].
  pose proof (round_returns E c _ no_options url Hurl fuel 0%nat s r
                (Hans _ _)) as Hrun.
  rewrite Hok in Hrun. specialize (Hrun eq_refl).
  rewrite <- Hc in Hrun at 1.
  destruct (reload_defined E (S fuel) this s _ p r data Hp Hrun Hok Hjson Hdata
              Hpayload) as (s1 & Hre & Hsnap & _ & _ & Htr & Hf).
  eexists s1, _. split; [exact Hre |]. split; [rewrite Hf; reflexivity |].
  split; [| split; [exact Hsnap | split; [exact Hc | exact Hdone]]].
  rewrite Htr. cbn [st_trace]. rewrite rhythm_app. reflexivity.
Qed.

Lemma checkStatus_S (polls fuel : nat) :
  checkStatus E (S polls) fuel this
  = (let* updated := reload E fuel this in
     let* u := read updated in
     if terminal (p_status u) then ret updated
     else
       let* self := read this in
       emit (EvSleep (pollInterval (p_client self) * 1000)%Q) ;;
       checkStatus E polls fuel this).
Proof. reflexivity. Qed.

(** [checkStatus] against a service whose answers number [0 .. k-1]
    leave the job running and whose answer number [k] ends it. *)
Lemma checkStatus_polls (fuel k : nat) :
  forall (polls : nat) (s : State) (p : Prediction) (answer : nat -> Response),
    st_heap s !! this = Some p -> p_client p = c -> (k < polls)%nat ->
    (forall i u init, (i <= k)%nat ->
       env_fetch E (st_fetches s + i) u init = Resolved (answer i)) ->
    (forall i, (i < k)%nat -> status_update (answer i) false) ->
    status_update (answer k) true ->
    exists s' p',
      checkStatus E polls (S fuel) this s = (Ret this, s')
      /\ rhythm (st_trace s')
         = (rhythm (st_trace s) ++ polling (pollInterval c * 1000) k)%list
      /\ st_fetches s' = (st_fetches s + k + 1)%nat
      /\ st_heap s' !! this = Some p' /\ terminal (p_status p') = true.
Proof.
  induction k as [| k IH]; intros polls s p answer Hp Hc Hpolls Hans Hrun Hend;
    (destruct polls as [| polls]; [lia |]); rewrite checkStatus_S.
  - assert (Hfirst : forall u init,
               env_fetch E (st_fetches s) u init = Resolved (answer 0%nat)).
    { intros u init. rewrite <- (Hans 0%nat u init) by lia.
      rewrite Nat.add_0_r. reflexivity. }
    destruct (reload_once fuel s p (answer 0%nat) true Hp Hc Hfirst Hend)
      as (s1 & p1 & Hre & Hf & Hrh & Hp1 & _ & Hdone).
    exists s1, p1.
    rewrite (bind_returns _ _ _ _ _ Hre).
    rewrite (bind_returns _ _ _ _ _ (read_defined _ _ _ Hp1)), Hdone.
    split; [reflexivity |]. split; [exact Hrh |]. split; [lia |].
    split; [exact Hp1 | reflexivity].
  - assert (Hfirst : forall u init,
               env_fetch E (st_fetches s) u init = Resolved (answer 0%nat)).
    { intros u init. rewrite <- (Hans 0%nat u init) by lia.
      rewrite Nat.add_0_r. reflexivity. }
    assert (Hgo0 : status_update (answer 0%nat) false) by (apply Hrun; lia).
    destruct (reload_once fuel s p (answer 0%nat) false Hp Hc Hfirst Hgo0)
      as (s1 & p1 & Hre & Hf & Hrh & Hp1 & Hc1 & Hgo).
    rewrite (bind_returns _ _ _ _ _ Hre).
    rewrite (bind_returns _ _ _ _ _ (read_defined _ _ _ Hp1)), Hgo.
    rewrite (bind_returns _ _ _ _ _ (read_defined _ _ _ Hp1)), Hc1.
    unfold bind at 1, emit.
    match goal with
    | |- context [checkStatus E polls (S fuel) this ?st] => set (s2 := st)
    end.
    assert (Hans' : forall i u init, (i <= k)%nat ->
               env_fetch E (st_fetches s2 + i) u init = Resolved (answer (S i))).
    { intros i u init Hi. cbn [s2 st_fetches]. rewrite Hf.
      rewrite <- (Hans (S i) u init) by lia. f_equal. lia. }
    assert (Hrun' : forall i, (i < k)%nat -> status_update (answer (S i)) false)
      by (intros i Hi; apply Hrun; lia).
    destruct (IH polls s2 p1 (fun i => answer (S i)) Hp1 Hc1 ltac:(lia)
                Hans' Hrun' Hend) as (s' & p' & Hck & Hrh' & Hf' & Hp' & Hdone).
    { exists s', p'. split; [exact Hck |].
      split; [| split; [| split; [exact Hp' | exact Hdone]]].
      * rewrite Hrh'. cbn [s2 st_trace]. rewrite rhythm_app, Hrh.
        cbn [rhythm polling]. rewrite <- !app_assoc. reflexivity.
      * rewrite Hf'. cbn [s2 st_fetches]. lia. }
Qed.

End Polling.

(** C3, as the code has it: on a job whose status is not terminal,
    [wait] calls [reload] at once; after every reload that leaves the
    job running it sleeps [pollInterval * 1000] ms and reloads again;
    it returns the reference it was called on after the first reload
    that yields a terminal status.  Against a service that answers
    every poll with a status update, [k] of them non-terminal and the
    next terminal, the fetches and sleeps of the call are a poll
    followed by [k] times a sleep and a poll: a sleep precedes every
    reload but the first. *)
Theorem wait_reloads_then_sleeps (E : Env) (c : WaveSpeed)
    (this polls fuel k : nat) (s : State) (p : Prediction)
    (answer : nat -> Response) :
  (forall path, exists url, env_URL E path (baseUrl c) = Some url) ->
  st_heap s !! this = Some p -> p_client p = c ->
  terminal (p_status p) = false ->
  (forall i u init, (i <= k)%nat ->
     env_fetch E (st_fetches s + i) u init = Resolved (answer i)) ->
  (forall i, (i < k)%nat -> status_update (answer i) false) ->
  status_update (answer k) true ->
  (k < polls)%nat -> (1 <= fuel)%nat ->
  exists s' p',
    wait E polls fuel this s = (Ret this, s')
    /\ rhythm (st_trace s')
       = (rhythm (st_trace s) ++ polling (pollInterval c * 1000) k)%list
    /\ st_fetches s' = (st_fetches s + k + 1)%nat
    /\ st_heap s' !! this = Some p' /\ terminal (p_status p') = true.
Proof.
  intros Hurl Hp Hc Hrunning Hans Hrun Hend Hpolls Hfuel.
  destruct fuel as [| fuel]; [lia |].
  unfold wait. rewrite (bind_returns _ _ _ _ _ (read_defined _ _ _ Hp)), Hrunning.
  exact (checkStatus_polls E c this Hurl fuel k polls s p answer
           Hp Hc Hpolls Hans Hrun Hend).
Qed.

(** ** Uploads *)

Lemma json_framed (init : FetchInit) (r : Response) : framed init (json r).
Proof.
  unfold json. destruct (resp_json r); [apply framed_ret | apply framed_throw].
Qed.

Lemma get_prop_framed (init : FetchInit) (v : JsVal) (k : string) :
  framed init (get_prop v k).
Proof. destruct v; simpl; (apply framed_ret || apply framed_throw). Qed.

Lemma upload_framed (E : Env) (fuel : nat) (c : WaveSpeed)
    (file : list Byte.byte) (options : option RequestOptions) :
  framed (fetch_init c (upload_options file options))
    (upload E fuel c file options).
Proof.
  unfold upload, fetchWithTimeout.
  apply framed_bind; [apply fetch_loop_framed | intro r].
  destruct (negb (ok r)).
  - apply framed_bind; [apply framed_ret | intro]. apply framed_throw.
  - apply framed_bind; [apply json_framed | intro].
    apply framed_bind; [apply get_prop_framed | intro]. apply get_prop_framed.
Qed.

(** C8: the code does not do what the sentence and the comment in
    [upload] say.  [upload] sets [isUpload] only when it is called
    without options; called with an options object that does not set
    the flag itself, such as [{ timeout: 5000 }] or [{}], the transport
    layer takes its JSON branch and the request carries
    [content-type: application/json] next to the bearer header.
    Without options (the path that works) the request has the bearer
    header and no [content-type]. *)
Theorem upload_with_options_sends_json_content_type :
  let sent (options : option RequestOptions) :=
    (fun h : gmap string string => (h !! "content-type", h !! "Authorization"))
      <$> fetched_headers (st_trace (snd
            (upload upload_accepted 1 sample_client [] options initial_state))) in
  sent (Some (options_with_timeout 5000))
  = [(Some "application/json", Some "Bearer test-api-key")]
  /\ sent (Some no_options)
     = [(Some "application/json", Some "Bearer test-api-key")]
  /\ sent None = [(None, Some "Bearer test-api-key")].
Proof.
  repeat split; vm_compute; reflexivity.
Qed.

(** * Worked instances *)

Lemma retry_cap_on_429_witness :
  exists r s',
    fetchWithTimeout always_429 3 sample_client "/test-path"
      (options_with_maxRetries 2) initial_state = (Ret r, s')
    /\ resp_status r = 429
    /\ env_fetch always_429 (st_fetches initial_state + 2)
         "https://api.wavespeed.ai/api/v3/test-path"
         (fetch_init sample_client (options_with_maxRetries 2)) = Resolved r
    /\ st_fetches s' = (st_fetches initial_state + 3)%nat
    /\ attempts (st_trace s') = (attempts (st_trace initial_state) + 3)%nat.
Proof.
  apply (retry_cap_on_429 always_429 sample_client "/test-path"
           "https://api.wavespeed.ai/api/v3/test-path"
           (options_with_maxRetries 2) 2 3 initial_state).
  - reflexivity.
  - intros i. exists (text_response 429 "Rate limit exceeded").
    split; reflexivity.
  - reflexivity.
  - reflexivity.
  - lia.
Defined.

Lemma zero_override_keeps_default_witness :
  effective_maxRetries (options_with_maxRetries 0) = 3%Q
  /\ exists r s',
       fetchWithTimeout always_429 4 sample_client "/test-path"
         (options_with_maxRetries 0) initial_state = (Ret r, s')
       /\ resp_status r = 429
       /\ attempts (st_trace s') = (attempts (st_trace initial_state) + 4)%nat.
Proof.
  destruct (zero_override_keeps_default always_429 sample_client "/test-path"
              "https://api.wavespeed.ai/api/v3/test-path"
              (options_with_maxRetries 0) 0 4 initial_state
              eq_refl (Qeq_refl 0)) as [Hbudget Hrun].
  split; [exact Hbudget |].
  apply Hrun.
  - reflexivity.
  - intros i. exists (text_response 429 "Rate limit exceeded").
    split; reflexivity.
  - lia.
Defined.

Lemma method_sensitive_retry_witness :
  (exists s',
     fetchWithTimeout unavailable_once 2 sample_client "/test-path"
       (options_with_method "GET") initial_state
     = (Ret (json_response 200 (obj [("success", JBool true)])), s')
     /\ st_fetches s' = 2%nat /\ attempts (st_trace s') = 2%nat)
  /\ (exists s',
       fetchWithTimeout unavailable_once 1 sample_client "/test-path"
         (options_with_method "POST") initial_state
       = (Ret (text_response 503 "Service unavailable"), s')
       /\ st_fetches s' = 1%nat /\ attempts (st_trace s') = 1%nat).
Proof.
  split.
  - destruct (method_sensitive_retry unavailable_once sample_client "/test-path"
                "https://api.wavespeed.ai/api/v3/test-path"
                (options_with_method "GET") initial_state)
      as (_ & _ & Hget & _).
    apply (Hget (text_response 503 "Service unavailable"));
      (reflexivity || lia).
  - destruct (method_sensitive_retry unavailable_once sample_client "/test-path"
                "https://api.wavespeed.ai/api/v3/test-path"
                (options_with_method "POST") initial_state)
      as (_ & _ & _ & Hpost).
    apply Hpost; (reflexivity || lia).
Defined.



(** On the sample inputs the rounding model and the primitive floats
    compute the same delay, or both no finite one. *)
Example doubles_agree_with_primitive_floats :
  forallb (fun n => forallb (agrees_with_floats n) sample_draws) sample_retries
  = true.
Proof. vm_compute. reflexivity. Qed.

Lemma constructor_without_key_witness :
  constructor always_429 (Some ∅) None
    {| co_baseUrl := None; co_pollInterval := None; co_timeout := None |}
    initial_state
  = (Throw (Error "API key is required. Provide it as a parameter or set the WAVESPEED_API_KEY environment variable."),
     initial_state).
Proof.
  apply constructor_without_key.
  intros vars Hvars. inversion Hvars. reflexivity.
Defined.

Lemma wait_terminal_is_noop_witness :
  wait always_429 5 5 0 (state_with (sample_job "failed" (JStr "out of memory")))
  = (Ret 0%nat, state_with (sample_job "failed" (JStr "out of memory"))).
Proof.
  apply (wait_terminal_is_noop always_429 5 5 0 _
           (sample_job "failed" (JStr "out of memory"))).
  - reflexivity.
  - right. reflexivity.
Defined.

Lemma reload_overwrites_in_place_witness :
  let run := reload job_done 1 0
               (state_with (sample_job "processing" (JStr "stale"))) in
  fst run = Ret 0%nat
  /\ p_status <$> st_heap (snd run) !! 0%nat = Some (JStr "completed")
  /\ p_outputs <$> st_heap (snd run) !! 0%nat = Some (JArr [JStr "url1"])
  /\ p_error <$> st_heap (snd run) !! 0%nat = Some JUndefined.
Proof.
  intros run.
  destruct (reload_overwrites_in_place job_done 1 0 0
              (state_with (sample_job "processing" (JStr "stale"))) (snd run))
    as (_ & old & r & data & s1 & Hold & Hfetch & _ & Hjson & Hsnap & _).
  - vm_compute. reflexivity.
  - assert (Hold' : Some old = Some (sample_job "processing" (JStr "stale")))
      by (rewrite <- Hold; vm_compute; reflexivity).
    injection Hold' as ->.
    assert (Hr : Ret r = Ret (json_response 200 (job_envelope "completed" [JStr "url1"])))
      by (change (Ret r) with (fst (Ret r, s1)); rewrite <- Hfetch;
          vm_compute; reflexivity).
    injection Hr as ->.
    assert (Hdata : data = job_envelope "completed" [JStr "url1"])
      by (simpl in Hjson; congruence).
    subst data. cbv zeta in Hsnap.
    split; [vm_compute; reflexivity |]. rewrite Hsnap.
    repeat split; vm_compute; reflexivity.
Defined.

Lemma create_rejects_application_code_witness :
  fst (create job_refused 1 sample_client "wavespeed-ai/flux-dev"
         (obj [("prompt", JStr "a")]) None initial_state)
  = Throw (Error "Failed to create prediction: 500 [object Object]").
Proof.
  destruct (create_rejects_application_code job_refused 1 sample_client
              "wavespeed-ai/flux-dev" (obj [("prompt", JStr "a")]) None
              initial_state
              (snd (fetchWithTimeout job_refused 1 sample_client
                      "wavespeed-ai/flux-dev"
                      (create_options (obj [("prompt", JStr "a")]) None)
                      initial_state))
              (json_response 200 (obj [("code", JNum 500); ("message", JStr "model not found")]))
              (obj [("code", JNum 500); ("message", JStr "model not found")]))
    as (Hrun & _).
  - vm_compute. reflexivity.
  - reflexivity.
  - reflexivity.
  - reflexivity.
  - intros q Hq. vm_compute in Hq. inversion Hq. subst q. discriminate.
  - rewrite Hrun. vm_compute. reflexivity.
Defined.

Lemma poll_answer_update (i : nat) (done : bool) :
  done = match i with O => false | _ => true end ->
  status_update (poll_answer i) done.
Proof.
  intros ->. destruct i; (split; [reflexivity |]); eexists;
    (split; [reflexivity |]); repeat split; vm_compute; reflexivity.
Qed.

Lemma wait_reloads_then_sleeps_witness :
  exists s',
    wait job_done_at_second_poll 2 1 0
      (state_with (sample_job "processing" JUndefined)) = (Ret 0%nat, s')
    /\ rhythm (st_trace s') = [Poll; Nap (pollInterval sample_client * 1000); Poll]
    /\ st_fetches s' = 2%nat.
Proof.
  destruct (wait_reloads_then_sleeps job_done_at_second_poll sample_client
              0 2 1 1 (state_with (sample_job "processing" JUndefined))
              (sample_job "processing" JUndefined) poll_answer)
    as (s' & p' & Hrun & Hrhythm & Hfetches & _).
  - intros path. eexists. reflexivity.
  - reflexivity.
  - reflexivity.
  - reflexivity.
  - intros i u init _. reflexivity.
  - intros i Hi. apply poll_answer_update. destruct i; [reflexivity | lia].
  - apply poll_answer_update. reflexivity.
  - lia.
  - lia.
  - exists s'. split; [exact Hrun |]. split; [exact Hrhythm | exact Hfetches].
Defined.

(** C3 as stated fails: on a running job the first thing [wait] does is
    a reload; the only sleep comes after it, between the two polls. *)
Lemma first_reload_precedes_any_sleep :
  let run := wait job_done_at_second_poll 2 1 0
               (state_with (sample_job "processing" JUndefined)) in
  fst run = Ret 0%nat
  /\ rhythm (st_trace (snd run)) = [Poll; Nap (1000 # 2); Poll]
  /\ head (rhythm (st_trace (snd run))) <> Some (Nap (pollInterval sample_client * 1000)).
Proof.
  vm_compute. repeat split. discriminate.
Qed.

(** * Further properties *)

(** ** One round of the retry loop, whatever the network does *)

Lemma timer_events_app (a b : list Event) :
  timer_events (a ++ b) = (timer_events a ++ timer_events b)%list.
Proof.
  induction a as [| e a IH]; [reflexivity |].
  destruct e; simpl; rewrite ?IH; reflexivity.
Qed.

Lemma sleeps_app (a b : list Event) : sleeps (a ++ b) = (sleeps a ++ sleeps b)%list.
Proof.
  induction a as [| e a IH]; [reflexivity |].
  destruct e; simpl; rewrite ?IH; reflexivity.
Qed.

Section AnyRound.

Variable E : Env.
Variable c : WaveSpeed.
Variable path : string.
Variable options : RequestOptions.

(** A round arms one timer and clears it, calls [fetch] at most once,
    and either settles the call or goes round again, which it does only
    while the retry counter is below the budget. *)
Lemma round_cases (fuel rc : nat) (s : State) :
  exists s',
    timer_events (st_trace s')
    = (timer_events (st_trace s)
       ++ [EvSetTimeout (effective_timeout c options); EvClearTimeout])%list
    /\ (st_fetches s' <= S (st_fetches s))%nat
    /\ (attempts (st_trace s') - attempts (st_trace s)
        = st_fetches s' - st_fetches s)%nat
    /\ (attempts (st_trace s) <= attempts (st_trace s'))%nat
    /\ ((fetch_loop E (S fuel) c path options rc s
         = fetch_loop E fuel c path options (S rc) s'
         /\ Qle_bool (effective_maxRetries options) (of_nat rc) = false)
        \/ exists o, fetch_loop E (S fuel) c path options rc s = (o, s')
                     /\ settled o).
Proof.
  rewrite fetch_loop_S.
  unfold bind, try_finally, try_catch, attempt, recover, new_URL, bind, emit,
    fetch, ret, throw, Qlt_bool; simpl.
  destruct (env_URL E (strip_slash path) (baseUrl c)) as [url |]; simpl;
    [destruct (env_fetch E (st_fetches s) url (fetch_init c options))
       as [r | e]; simpl;
     [destruct (ok r || negb (shouldRetry options r)); simpl |] |];
    destruct (Qle_bool (effective_maxRetries options) (of_nat rc)) eqn:Hb;
    simpl; rewrite ?andb_false_r, ?andb_true_r; simpl;
    try match goal with
        | |- context [err_is_Error ?e && ?n] => destruct (err_is_Error e && n)
        end;
    unfold retry_after, bind, _getBackoffTime, bind, Math_random, console_warn,
      emit, ret; simpl;
    try destruct (env_console E); simpl;
    eexists;
    (split; [| split; [| split; [| split;
       [| first [ left; split; reflexivity
                | right; eexists; split; [reflexivity | exact I] ] ] ] ] ]);
    cbn [st_trace st_fetches];
    rewrite ?timer_events_app, ?attempts_app; simpl;
    rewrite <- ?app_assoc; simpl; try reflexivity; try lia.
Qed.

End AnyRound.

(** ** The retry budget bounds every call *)

Lemma fetch_loop_bounded (E : Env) (c : WaveSpeed) (path : string)
    (options : RequestOptions) (N k : nat) :
  (effective_maxRetries options <= of_nat N)%Q ->
  forall (rc fuel : nat) (s : State),
    (N <= rc + k)%nat -> (k < fuel)%nat ->
    exists o s',
      fetch_loop E fuel c path options rc s = (o, s')
      /\ settled o
      /\ (st_fetches s' <= st_fetches s + k + 1)%nat
      /\ (attempts (st_trace s') <= attempts (st_trace s) + k + 1)%nat.
Proof.
  intros Hm. induction k as [| k IH]; intros rc fuel s Hrc Hfuel;
    (destruct fuel as [| fuel]; [lia |]);
    destruct (round_cases E c path options fuel rc s)
      as (s1 & _ & Hf & Ha & Hmono & [[Hstep Hgo] | [o [Hrun Hset]]]);
    try (exists o, s1; repeat split; [exact Hrun | exact Hset | lia | lia]).
  - exfalso. assert (Hle : Qle_bool (effective_maxRetries options) (of_nat rc) = true).
    { apply Qle_bool_iff. eapply Qle_trans; [exact Hm |].
      apply of_nat_le. lia. }
    congruence.
  - destruct (IH (S rc) fuel s1) as (o & s' & Hrun & Hset & Hf' & Ha');
      [lia | lia |].
    exists o, s'. rewrite Hstep.
    repeat split; [exact Hrun | exact Hset | lia | lia].
Qed.

(** X1: whatever the network answers, a call whose retry budget is at
    most [N] comes back (with a response or an exception) after at most
    [N + 1] calls of [fetch]. *)
Theorem attempts_never_exceed_budget (E : Env) (c : WaveSpeed) (path : string)
    (options : RequestOptions) (N fuel : nat) (s : State) :
  (effective_maxRetries options <= of_nat N)%Q ->
  (N < fuel)%nat ->
  exists o s',
    fetchWithTimeout E fuel c path options s = (o, s')
    /\ settled o
    /\ (st_fetches s' <= st_fetches s + N + 1)%nat
    /\ (attempts (st_trace s') <= attempts (st_trace s) + N + 1)%nat.
Proof.
  intros Hm Hfuel. unfold fetchWithTimeout.
  apply (fetch_loop_bounded E c path options N N Hm); lia.
Qed.

(** ** Abort timers *)

Lemma fetch_loop_timers (E : Env) (c : WaveSpeed) (path : string)
    (options : RequestOptions) (fuel : nat) :
  forall (rc : nat) (s s' : State) (o : Outcome Response),
    fetch_loop E fuel c path options rc s = (o, s') ->
    exists n,
      timer_events (st_trace s')
      = (timer_events (st_trace s)
         ++ armed_and_cleared (effective_timeout c options) n)%list
      /\ (n <= fuel)%nat
      /\ (st_fetches s' <= st_fetches s + n)%nat.
Proof.
  induction fuel as [| fuel IH]; intros rc s s' o Hrun.
  - inversion Hrun; subst. exists 0%nat. simpl. rewrite app_nil_r.
    repeat split; lia.
  - destruct (round_cases E c path options fuel rc s)
      as (s1 & Ht & Hf & _ & _ & [[Hstep _] | [o1 [Hrun1 _]]]).
    + rewrite Hstep in Hrun. destruct (IH _ _ _ _ Hrun) as (n & Hn & Hle & Hfn).
      exists (S n). rewrite Hn, Ht, <- app_assoc. simpl.
      repeat split; [lia | lia].
    + rewrite Hrun1 in Hrun. inversion Hrun; subst.
      exists 1%nat. rewrite Ht. simpl. repeat split; lia.
Qed.

(** X2: in every run of [fetchWithTimeout], whether it returns, throws
    or retries, each attempt arms one abort timer with the timeout of
    the call and clears it before the next attempt or the exit: no timer
    is left armed, and no two are armed at once. *)
Theorem timers_always_cleared (E : Env) (c : WaveSpeed) (path : string)
    (options : RequestOptions) (fuel : nat) (s s' : State)
    (o : Outcome Response) :
  fetchWithTimeout E fuel c path options s = (o, s') ->
  exists n,
    timer_events (st_trace s')
    = (timer_events (st_trace s)
       ++ armed_and_cleared (effective_timeout c options) n)%list
    /\ (st_fetches s' <= st_fetches s + n)%nat.
Proof.
  intros Hrun. unfold fetchWithTimeout in Hrun.
  destruct (fetch_loop_timers E c path options fuel 0%nat s s' o Hrun)
    as (n & Hn & _ & Hf).
  exists n. split; assumption.
Qed.

(** ** Failed attempts *)

Section FailedRounds.

Variable E : Env.
Variable c : WaveSpeed.
Variable path : string.
Variable options : RequestOptions.

(** A round whose [try] block throws: the error is thrown again, after
    the timer is cleared, unless it is transient and the budget allows
    a retry. *)
Lemma round_after_throw (fuel rc : nat) (s s1 : State) (e : JsError) :
  attempt E c path options rc
    (snd (emit (EvSetTimeout (effective_timeout c options)) s)) = (Throw e, s1) ->
  (transient e && Qlt_bool (of_nat rc) (effective_maxRetries options) = false ->
   fetch_loop E (S fuel) c path options rc s
   = (Throw e, snd (emit EvClearTimeout s1)))
  /\ (transient e && Qlt_bool (of_nat rc) (effective_maxRetries options) = true ->
      exists s',
        fetch_loop E (S fuel) c path options rc s
        = fetch_loop E fuel c path options (S rc) s'
        /\ st_fetches s' = st_fetches s1
        /\ attempts (st_trace s') = attempts (st_trace s1)
        /\ sleeps (st_trace s')
           = (sleeps (st_trace s1)
              ++ [backoffTime (Z.of_nat (S rc)) 1000 (env_random E (st_randoms s1))])%list).
Proof.
  intros Hatt.
  assert (Hround : fetch_loop E (S fuel) c path options rc s
            = match recover E options rc e s1 with
              | (Ret (Return r), s2) => (Ret r, snd (emit EvClearTimeout s2))
              | (Ret (Continue rc'), s2) =>
                  fetch_loop E fuel c path options rc' (snd (emit EvClearTimeout s2))
              | (Throw e', s2) => (Throw e', snd (emit EvClearTimeout s2))
              | (OutOfFuel, s2) => (OutOfFuel, s2)
              | (BadRef, s2) => (BadRef, s2)
              end).
  { rewrite fetch_loop_S. unfold bind, try_finally, try_catch.
    change (emit (EvSetTimeout (effective_timeout c options)) s)
      with (Ret tt, snd (emit (EvSetTimeout (effective_timeout c options)) s)).
    cbv iota beta. rewrite Hatt.
    destruct (recover E options rc e s1) as [[[r | rc'] | e' | |] s2];
      reflexivity. }
  rewrite Hround. unfold recover. fold (transient e).
  split; intros Hcond; rewrite Hcond.
  - reflexivity.
  - unfold retry_after, bind, _getBackoffTime, bind, Math_random, console_warn,
      emit, ret; simpl.
    destruct (env_console E); simpl; eexists; (split; [reflexivity |]);
      cbn [st_trace st_fetches]; rewrite !attempts_app, !sleeps_app; simpl;
      rewrite ?app_nil_r, ?Nat.add_0_r; repeat split; reflexivity.
Qed.

Variable url : string.
Hypothesis url_ok : env_URL E (strip_slash path) (baseUrl c) = Some url.

Lemma attempt_rejected (rc : nat) (s : State) (e : JsError) :
  env_fetch E (st_fetches s) url (fetch_init c options) = Rejected e ->
  attempt E c path options rc s
  = (Throw e,
     {| st_trace := st_trace s ++ [EvFetch url (fetch_init c options)];
        st_fetches := S (st_fetches s); st_randoms := st_randoms s;
        st_heap := st_heap s; st_next := st_next s |}).
Proof.
  intros Hf. unfold attempt, new_URL. rewrite url_ok, bind_ret.
  unfold bind, fetch. rewrite Hf. reflexivity.
Qed.

(** When every attempt fails with a transient error and the budget is
    the natural number [N], a loop that has used [rc] retries makes
    [N - rc] more and throws the error of the last attempt. *)
Lemma failing_loop (N k : nat) :
  (forall i, exists e,
      env_fetch E i url (fetch_init c options) = Rejected e
      /\ transient e = true) ->
  (effective_maxRetries options == of_nat N)%Q ->
  forall (rc fuel : nat) (s : State),
    (rc + k = N)%nat -> (k < fuel)%nat ->
    exists e s',
      fetch_loop E fuel c path options rc s = (Throw e, s')
      /\ env_fetch E (st_fetches s + k) url (fetch_init c options) = Rejected e
      /\ st_fetches s' = (st_fetches s + k + 1)%nat
      /\ attempts (st_trace s') = (attempts (st_trace s) + k + 1)%nat
      /\ length (sleeps (st_trace s')) = (length (sleeps (st_trace s)) + k)%nat.
Proof.
  intros Hall Hm. induction k as [| k IH]; intros rc fuel s Hrc Hfuel;
    (destruct fuel as [| fuel]; [lia |]);
    destruct (Hall (st_fetches s)) as (e & He & Htr);
    destruct (round_after_throw fuel rc s _ e
                (attempt_rejected rc
                   (snd (emit (EvSetTimeout (effective_timeout c options)) s))
                   e He)) as [Hstop Hgo];
    unfold Qlt_bool in Hstop, Hgo;
    rewrite Htr, (budget_spent _ N rc Hm) in Hstop, Hgo.
  - replace (N <=? rc)%nat with true in Hstop
      by (symmetry; apply Nat.leb_le; lia).
    exists e. eexists. split; [apply Hstop; reflexivity |].
    cbn [st_trace st_fetches emit snd]. rewrite !attempts_app, !sleeps_app.
    simpl. rewrite Nat.add_0_r, !app_nil_r.
    repeat split; [exact He | lia | lia | lia].
  - replace (N <=? rc)%nat with false in Hgo
      by (symmetry; apply Nat.leb_gt; lia).
    destruct (Hgo eq_refl) as (s1 & Hstep & Hf1 & Ha1 & Hs1).
    cbn [st_trace st_fetches emit snd] in Hf1, Ha1, Hs1.
    rewrite !attempts_app in Ha1. rewrite !sleeps_app in Hs1.
    simpl in Ha1, Hs1. rewrite !app_nil_r in Hs1.
    destruct (IH (S rc) fuel s1) as (e' & s' & Hrun & Hlast & Hf & Ha & Hs);
      [lia | lia |].
    exists e', s'. rewrite Hstep. split; [exact Hrun |].
    rewrite Hf1 in Hlast, Hf. rewrite Ha1 in Ha.
    rewrite Hs1, length_app in Hs. simpl in Hs.
    replace (st_fetches s + S k)%nat with (S (st_fetches s) + k)%nat by lia.
    repeat split; [exact Hlast | lia | lia | lia].
Qed.

End FailedRounds.

Lemma attempt_invalid_url (E : Env) (c : WaveSpeed) (path : string)
    (options : RequestOptions) (rc : nat) (s : State) :
  env_URL E (strip_slash path) (baseUrl c) = None ->
  attempt E c path options rc s = (Throw (TypeError "Invalid URL"), s).
Proof.
  intros Hurl. unfold attempt, new_URL. rewrite Hurl. reflexivity.
Qed.

Lemma invalid_url_loop (E : Env) (c : WaveSpeed) (path : string)
    (options : RequestOptions) (N k : nat) :
  env_URL E (strip_slash path) (baseUrl c) = None ->
  (effective_maxRetries options == of_nat N)%Q ->
  forall (rc fuel : nat) (s : State),
    (rc + k = N)%nat -> (k < fuel)%nat ->
    exists s',
      fetch_loop E fuel c path options rc s = (Throw (TypeError "Invalid URL"), s')
      /\ st_fetches s' = st_fetches s
      /\ attempts (st_trace s') = attempts (st_trace s)
      /\ length (sleeps (st_trace s')) = (length (sleeps (st_trace s)) + k)%nat.
Proof.
  intros Hurl Hm. induction k as [| k IH]; intros rc fuel s Hrc Hfuel;
    (destruct fuel as [| fuel]; [lia |]);
    destruct (round_after_throw E c path options fuel rc s _ _
                (attempt_invalid_url E c path options rc _ Hurl))
      as [Hstop Hgo];
    unfold Qlt_bool in Hstop, Hgo;
    rewrite (budget_spent _ N rc Hm) in Hstop, Hgo;
    change (transient (TypeError "Invalid URL")) with true in Hstop, Hgo.
  - replace (N <=? rc)%nat with true in Hstop
      by (symmetry; apply Nat.leb_le; lia).
    eexists. split; [apply Hstop; reflexivity |].
    cbn [st_trace st_fetches emit snd]. rewrite !attempts_app, !sleeps_app.
    simpl. rewrite !Nat.add_0_r, !app_nil_r. repeat split; reflexivity.
  - replace (N <=? rc)%nat with false in Hgo
      by (symmetry; apply Nat.leb_gt; lia).
    destruct (Hgo eq_refl) as (s1 & Hstep & Hf1 & Ha1 & Hs1).
    cbn [st_trace st_fetches emit snd] in Hf1, Ha1, Hs1.
    rewrite !attempts_app in Ha1. rewrite !sleeps_app in Hs1.
    simpl in Ha1, Hs1. rewrite !app_nil_r in Hs1.
    destruct (IH (S rc) fuel s1) as (s' & Hrun & Hf & Ha & Hs); [lia | lia |].
    exists s'. rewrite Hstep. split; [exact Hrun |].
    rewrite Hs1, length_app in Hs. simpl in Hs.
    repeat split; [congruence | lia | lia].
Qed.

(** X3: when every attempt fails with a transient error (a timeout
    abort or a network failure) and the retry budget is [N], the call
    makes [N + 1] attempts, sleeps [N] times, and throws the error of
    the last attempt as it is. *)
Theorem transient_errors_exhaust_budget (E : Env) (c : WaveSpeed)
    (path url : string) (options : RequestOptions) (N fuel : nat) (s : State) :
  env_URL E (strip_slash path) (baseUrl c) = Some url ->
  (forall i, exists e,
      env_fetch E i url (fetch_init c options) = Rejected e
      /\ transient e = true) ->
  (effective_maxRetries options == of_nat N)%Q ->
  (N < fuel)%nat ->
  exists e s',
    fetchWithTimeout E fuel c path options s = (Throw e, s')
    /\ env_fetch E (st_fetches s + N) url (fetch_init c options) = Rejected e
    /\ st_fetches s' = (st_fetches s + N + 1)%nat
    /\ attempts (st_trace s') = (attempts (st_trace s) + N + 1)%nat
    /\ length (sleeps (st_trace s')) = (length (sleeps (st_trace s)) + N)%nat.
Proof.
  intros Hurl Hall Hm Hfuel. unfold fetchWithTimeout.
  apply (failing_loop E c path options url Hurl N N Hall Hm); lia.
Qed.

(** X4: an error of [fetch] that is not transient (not an [Error], or
    named otherwise than AbortError or TypeError) is thrown at once,
    whatever the budget: one attempt, no sleep, the timer cleared. *)
Theorem other_errors_thrown_at_once (E : Env) (c : WaveSpeed)
    (path url : string) (options : RequestOptions) (fuel : nat) (s : State)
    (e : JsError) :
  env_URL E (strip_slash path) (baseUrl c) = Some url ->
  env_fetch E (st_fetches s) url (fetch_init c options) = Rejected e ->
  transient e = false ->
  fetchWithTimeout E (S fuel) c path options s
  = (Throw e,
     {| st_trace := st_trace s
          ++ [EvSetTimeout (effective_timeout c options);
              EvFetch url (fetch_init c options); EvClearTimeout];
        st_fetches := S (st_fetches s); st_randoms := st_randoms s;
        st_heap := st_heap s; st_next := st_next s |}).
Proof.
  intros Hurl He Htr. unfold fetchWithTimeout.
  destruct (round_after_throw E c path options fuel 0%nat s _ e
              (attempt_rejected E c path options url Hurl 0%nat
                 (snd (emit (EvSetTimeout (effective_timeout c options)) s))
                 e He)) as [Hstop _].
  rewrite Hstop by (rewrite Htr; reflexivity).
  unfold emit; simpl. rewrite <- !app_assoc. reflexivity.
Qed.

(** X5: a path that does not resolve to a URL is treated like a network
    failure, because [new URL] throws its [TypeError] inside the [try]
    block: with a budget of [N] the call sleeps [N] times, never calls
    [fetch], and throws the [TypeError]. *)
Theorem invalid_url_is_retried_without_fetching (E : Env) (c : WaveSpeed)
    (path : string) (options : RequestOptions) (N fuel : nat) (s : State) :
  env_URL E (strip_slash path) (baseUrl c) = None ->
  (effective_maxRetries options == of_nat N)%Q ->
  (N < fuel)%nat ->
  exists e s',
    fetchWithTimeout E fuel c path options s = (Throw e, s')
    /\ err_name e = "TypeError"
    /\ st_fetches s' = st_fetches s
    /\ attempts (st_trace s') = attempts (st_trace s)
    /\ length (sleeps (st_trace s')) = (length (sleeps (st_trace s)) + N)%nat.
Proof.
  intros Hurl Hm Hfuel. unfold fetchWithTimeout.
  destruct (invalid_url_loop E c path options N N Hurl Hm 0%nat fuel s)
    as (s' & Hrun & Hf & Ha & Hs); [lia | lia |].
  exists (TypeError "Invalid URL"), s'.
  repeat split; assumption.
Qed.

(** X6: a transient error followed by a response that is not retried
    (a 2xx, say) is recovered: the call makes 2 attempts, sleeps once
    for the backoff of retry 1, and returns the response. *)
Theorem transient_error_is_recovered (E : Env) (c : WaveSpeed)
    (path url : string) (options : RequestOptions) (fuel : nat) (s : State)
    (e : JsError) (r : Response) :
  env_URL E (strip_slash path) (baseUrl c) = Some url ->
  env_fetch E (st_fetches s) url (fetch_init c options) = Rejected e ->
  transient e = true ->
  (0 < effective_maxRetries options)%Q ->
  env_fetch E (S (st_fetches s)) url (fetch_init c options) = Resolved r ->
  ok r || negb (shouldRetry options r) = true ->
  exists s',
    fetchWithTimeout E (S (S fuel)) c path options s = (Ret r, s')
    /\ st_fetches s' = (st_fetches s + 2)%nat
    /\ sleeps (st_trace s')
       = (sleeps (st_trace s)
          ++ [backoffTime 1 1000 (env_random E (st_randoms s))])%list.
Proof.
  intros Hurl He Htr Hm Hr Hstop. unfold fetchWithTimeout.
  destruct (round_after_throw E c path options (S fuel) 0%nat s _ e
              (attempt_rejected E c path options url Hurl 0%nat
                 (snd (emit (EvSetTimeout (effective_timeout c options)) s))
                 e He)) as [_ Hgo].
  destruct Hgo as (s1 & Hstep & Hf1 & _ & Hs1).
  { rewrite Htr. unfold Qlt_bool.
    destruct (Qle_bool (effective_maxRetries options) (of_nat 0)) eqn:Hle;
      [| reflexivity].
    apply Qle_bool_iff in Hle. change (of_nat 0) with 0%Q in Hle. lra. }
  cbn [st_trace st_fetches st_randoms emit snd] in Hf1, Hs1.
  rewrite !sleeps_app in Hs1. simpl in Hs1. rewrite !app_nil_r in Hs1.
  rewrite Hstep. eexists. split.
  - apply (round_returns E c path options url Hurl);
      [rewrite Hf1; exact Hr | rewrite Hstop; reflexivity].
  - cbn [st_fetches st_trace]. rewrite sleeps_app, Hs1, Hf1. simpl.
    rewrite app_nil_r. split; [lia | reflexivity].
Qed.

(** ** Responses that are not retried *)

Lemma shouldRetry_below_500 (options : RequestOptions) (r : Response) :
  resp_status r <> 429 -> resp_status r < 500 -> shouldRetry options r = false.
Proof.
  intros H429 H500. unfold shouldRetry.
  replace (resp_status r =? 429) with false by (symmetry; apply Z.eqb_neq; lia).
  replace (500 <=? resp_status r) with false by (symmetry; apply Z.leb_gt; lia).
  apply andb_false_r.
Qed.

(** X7: a response whose status is below 500 and not 429 (a 404, a 401,
    a redirect) is handed back after a single attempt, for every method
    and every budget; the caller inspects the status. *)
Theorem other_statuses_returned_at_once (E : Env) (c : WaveSpeed)
    (path url : string) (options : RequestOptions) (fuel : nat) (s : State)
    (r : Response) :
  env_URL E (strip_slash path) (baseUrl c) = Some url ->
  env_fetch E (st_fetches s) url (fetch_init c options) = Resolved r ->
  resp_status r <> 429 -> resp_status r < 500 ->
  fetchWithTimeout E (S fuel) c path options s
  = (Ret r,
     {| st_trace := st_trace s
          ++ [EvSetTimeout (effective_timeout c options);
              EvFetch url (fetch_init c options); EvClearTimeout];
        st_fetches := S (st_fetches s); st_randoms := st_randoms s;
        st_heap := st_heap s; st_next := st_next s |}).
Proof.
  intros Hurl Hr H429 H500. unfold fetchWithTimeout.
  apply (round_returns E c path options url Hurl); [exact Hr |].
  rewrite (shouldRetry_below_500 options r H429 H500). simpl.
  rewrite orb_true_r. reflexivity.
Qed.

(** ** Paths *)

Lemma attempt_path (E : Env) (c : WaveSpeed) (p1 p2 : string)
    (options : RequestOptions) (rc : nat) :
  strip_slash p1 = strip_slash p2 ->
  attempt E c p1 options rc = attempt E c p2 options rc.
Proof. intros H. unfold attempt. rewrite H. reflexivity. Qed.

Lemma fetch_loop_path (E : Env) (c : WaveSpeed) (p1 p2 : string)
    (options : RequestOptions) (fuel : nat) :
  strip_slash p1 = strip_slash p2 ->
  forall rc s,
    fetch_loop E fuel c p1 options rc s = fetch_loop E fuel c p2 options rc s.
Proof.
  intros H. induction fuel as [| fuel IH]; intros rc s; [reflexivity |].
  rewrite !fetch_loop_S, (attempt_path E c p1 p2 options rc H).
  unfold bind.
  destruct (emit (EvSetTimeout (effective_timeout c options)) s) as [[[] | | |] s0];
    try reflexivity.
  destruct (try_finally _ _ s0) as [[[r | rc'] | | |] s1]; try reflexivity.
  apply IH.
Qed.

(** X8: one leading slash of the path is dropped before the URL is
    resolved, so ["/p"] and ["p"] are the same call (for a [p] that does
    not itself begin with a slash). *)
Theorem leading_slash_is_ignored (E : Env) (c : WaveSpeed) (p : string)
    (options : RequestOptions) (fuel : nat) (s : State) :
  strip_slash p = p ->
  fetchWithTimeout E fuel c (String "/" p) options s
  = fetchWithTimeout E fuel c p options s.
Proof.
  intros Hp. unfold fetchWithTimeout.
  apply fetch_loop_path. simpl. symmetry. exact Hp.
Qed.

(** ** Growth of the backoff *)

(** X9: whatever the jitter, the delay the code computes before retry
    [n + 1] is longer than the one before retry [n], as long as both
    are finite ([n + 1 <= 1013]): the least delay of retry [n + 1],
    [2000 * 2^n], exceeds the greatest of retry [n], [1500 * 2^n]. *)
Theorem backoff_strictly_grows (n : Z) (r r' : Q) :
  0 <= n <= 1012 ->
  (0 <= r)%Q -> (r < 1)%Q -> (0 <= r')%Q -> (r' < 1)%Q ->
  exists delay delay' : Q,
    double_backoffTime n 1000 r = Some delay
    /\ double_backoffTime (n + 1) 1000 r' = Some delay'
    /\ (delay < delay')%Q.
Proof.
  intros Hn H0 H1 H0' H1'.
  destruct (double_backoffTime_range n r)
    as (b & j & d & _ & _ & _ & _ & _ & _ & Hd & _ & Hhi);
    [lia | exact H0 | exact H1 |].
  destruct (double_backoffTime_range (n + 1) r')
    as (b' & j' & d' & _ & _ & _ & _ & _ & _ & Hd' & Hlo & _);
    [lia | exact H0' | exact H1' |].
  exists d, d'. split; [exact Hd |]. split; [exact Hd' |].
  pose proof (pow2_pos n) as Hp.
  assert (Hs : (2 ^ (n + 1) == 2 * 2 ^ n)%Q).
  { rewrite pow2_add. simpl (2 ^ 1)%Q. ring. }
  rewrite Hs in Hlo.
  set (x := (2 ^ n)%Q) in *. clearbody x. lra.
Qed.

(** ** Submitting a job *)

Lemma post_not_retried (E : Env) (c : WaveSpeed) (path url : string)
    (options : RequestOptions) (fuel : nat) (s : State) (r : Response) :
  env_URL E (strip_slash path) (baseUrl c) = Some url ->
  effective_method options <> "GET" ->
  env_fetch E (st_fetches s) url (fetch_init c options) = Resolved r ->
  resp_status r <> 429 ->
  fetchWithTimeout E (S fuel) c path options s
  = (Ret r,
     {| st_trace := st_trace s
          ++ [EvSetTimeout (effective_timeout c options);
              EvFetch url (fetch_init c options); EvClearTimeout];
        st_fetches := S (st_fetches s); st_randoms := st_randoms s;
        st_heap := st_heap s; st_next := st_next s |}).
Proof.
  intros Hurl Hm Hr Hs. unfold fetchWithTimeout.
  apply (round_returns E c path options url Hurl); [exact Hr |].
  assert (Hsr : shouldRetry options r = false).
  { unfold shouldRetry.
    replace (resp_status r =? 429) with false by (symmetry; apply Z.eqb_neq; lia).
    apply String.eqb_neq in Hm. rewrite Hm. reflexivity. }
  rewrite Hsr. simpl. rewrite orb_true_r. reflexivity.
Qed.

Lemma server_error_not_ok (r : Response) : 500 <= resp_status r -> ok r = false.
Proof.
  intros H. unfold ok.
  replace (resp_status r <=? 299) with false by (symmetry; apply Z.leb_gt; lia).
  apply andb_false_r.
Qed.

(** One run of [create] on a 2xx answer whose envelope has code 200 and
    a payload. *)
Lemma create_defined (E : Env) (fuel : nat) (c : WaveSpeed) (modelId : string)
    (input : JsVal) (options : option RequestOptions) (s s1 : State)
    (r : Response) (data : JsVal) (q : Q) :
  fetchWithTimeout E fuel c (create_url modelId options)
    (create_options input options) s = (Ret r, s1) ->
  ok r = true ->
  resp_json r = Some data ->
  prop data "code" = JNum q -> (q == 200)%Q ->
  nullish (prop data "data") = false ->
  let payload := prop data "data" in
  let record :=
    {| p_id := prop payload "id"; p_model := prop payload "model";
       p_status := prop payload "status"; p_input := prop payload "input";
       p_outputs := js_or (prop payload "outputs") (JArr []);
       p_urls := prop payload "urls";
       p_has_nsfw_contents :=
         js_or (prop payload "has_nsfw_contents") (JArr []);
       p_created_at := prop payload "created_at";
       p_error := prop payload "error";
       p_executionTime := prop payload "executionTime";
       p_client := c |} in
  create E fuel c modelId input options s
  = (Ret (st_next s),
     {| st_trace := st_trace s1; st_fetches := st_fetches s1;
        st_randoms := st_randoms s1;
        st_heap := <[st_next s := record]> (st_heap s);
        st_next := S (st_next s) |}).
Proof.
  intros Hfetch Hok Hjson Hcode Hq Hpayload payload record.
  destruct (fetch_loop_framed E _ _ _ fuel 0%nat s _ s1 Hfetch)
    as (Hheap & Hnext & _).
  assert (Hdata : nullish data = false).
  { destruct data; try reflexivity; simpl in Hcode; discriminate. }
  unfold create.
  rewrite (bind_returns _ _ _ _ _ Hfetch), Hok. cbn [negb].
  unfold json. rewrite Hjson, bind_ret.
  rewrite (get_prop_defined data "code" Hdata), bind_ret, Hcode.
  unfold num_neq. apply Qeq_bool_iff in Hq. rewrite Hq. cbn [negb].
  rewrite (get_prop_defined data "data" Hdata), bind_ret.
  rewrite (new_Prediction_defined _ _ _ Hpayload).
  unfold alloc. rewrite Hheap, Hnext. reflexivity.
Qed.

(** X11: when the transport call of [create] returns a 2xx response
    whose envelope has code 200 and a [data] payload, [create] returns
    a new reference; the record behind it holds the fields of the
    payload and is bound to the client that created it, and the records
    that existed before are untouched. *)
Theorem create_returns_fresh_record (E : Env) (fuel : nat) (c : WaveSpeed)
    (modelId : string) (input : JsVal) (options : option RequestOptions)
    (s s1 : State) (r : Response) (data : JsVal) (q : Q) :
  fetchWithTimeout E fuel c (create_url modelId options)
    (create_options input options) s = (Ret r, s1) ->
  ok r = true ->
  resp_json r = Some data ->
  prop data "code" = JNum q -> (q == 200)%Q ->
  nullish (prop data "data") = false ->
  exists s2 record,
    create E fuel c modelId input options s = (Ret (st_next s), s2)
    /\ st_heap s2 !! st_next s = Some record
    /\ p_client record = c
    /\ p_id record = prop (prop data "data") "id"
    /\ p_status record = prop (prop data "data") "status"
    /\ p_outputs record = js_or (prop (prop data "data") "outputs") (JArr [])
    /\ (forall l, l <> st_next s -> st_heap s2 !! l = st_heap s !! l)
    /\ st_next s2 = S (st_next s).
Proof.
  intros Hfetch Hok Hjson Hcode Hq Hpayload.
  pose proof (create_defined E fuel c modelId input options s s1 r data q
                Hfetch Hok Hjson Hcode Hq Hpayload) as Hrun.
  cbv zeta in Hrun. eexists. eexists. split; [exact Hrun |].
  cbn [st_heap st_next]. rewrite lookup_insert_eq.
  split; [reflexivity |]. repeat (split; [reflexivity |]).
  split; [| reflexivity].
  intros l Hl. apply lookup_insert_ne. congruence.
Qed.

(** A caller's [{ method: undefined }], spread after [method: 'POST'],
    takes the method away: the request counts as a GET, which the
    transport retries; the options then no longer leave the method
    alone. *)
Lemma undefined_method_overrides_post (body : Body) (options : RequestOptions) :
  opt_method options = Some None ->
  effective_method (post_with body options) = "GET".
Proof.
  intros H. unfold effective_method, post_with. cbn [opt_method].
  rewrite H. reflexivity.
Qed.

(** X12: [create] posts, so only a 429 is retried: when the caller's
    options leave the method alone and the first answer is neither 2xx
    nor 429 (a 4xx or a 5xx), [create] throws the creation error made
    of the status and the body text after exactly one call of [fetch],
    without sleeping and without allocating a record. *)
Theorem create_fails_without_retry (E : Env) (fuel : nat)
    (c : WaveSpeed) (modelId url : string) (input : JsVal)
    (options : option RequestOptions) (s : State) (r : Response) :
  env_URL E (strip_slash (create_url modelId options)) (baseUrl c) = Some url ->
  effective_method (create_options input options) = "POST" ->
  env_fetch E (st_fetches s) url (fetch_init c (create_options input options))
  = Resolved r ->
  ok r = false -> resp_status r <> 429 ->
  exists s',
    create E (S fuel) c modelId input options s
    = (Throw (Error ("Failed to create prediction: "
                     ++ show_Z E (resp_status r) ++ " " ++ resp_text r)), s')
    /\ st_fetches s' = S (st_fetches s)
    /\ sleeps (st_trace s') = sleeps (st_trace s)
    /\ st_heap s' = st_heap s.
Proof.
  intros Hurl Hpost Hr Hok Hs.
  assert (Hm : effective_method (create_options input options) <> "GET")
    by (rewrite Hpost; discriminate).
  pose proof (post_not_retried E c _ url _ fuel s r Hurl Hm Hr Hs) as Hrun.
  eexists. split.
  - unfold create. rewrite (bind_returns _ _ _ _ _ Hrun), Hok. reflexivity.
  - cbn [st_fetches st_trace st_heap]. rewrite sleeps_app. simpl.
    rewrite app_nil_r. repeat split; reflexivity.
Qed.

(** ** Reloading and waiting when things go wrong *)

Lemma get_prop_nullish (v : JsVal) (k : string) (s : State) :
  nullish v = true -> exists e, get_prop v k s = (Throw e, s).
Proof. destruct v; try discriminate; intros _; eexists; reflexivity. Qed.

(** X13: a [reload] that throws, for whatever reason (transport error,
    status that is not 2xx, body that is not JSON, envelope without
    payload), leaves every record of the store as it was: the job
    record is only written once the fresh snapshot is complete. *)
Theorem failed_reload_keeps_record (E : Env) (fuel this : nat) (s s' : State)
    (e : JsError) :
  reload E fuel this s = (Throw e, s') ->
  st_heap s' = st_heap s /\ st_next s' = st_next s.
Proof.
  intros Hrun. pose proof Hrun as Hrun0. unfold reload in Hrun.
  destruct (st_heap s !! this) as [old |] eqn:Hold;
    [| unfold bind, read in Hrun; rewrite Hold in Hrun; discriminate].
  rewrite (bind_returns _ _ _ _ _ (read_defined _ _ _ Hold)) in Hrun.
  destruct (fetchWithTimeout E fuel (p_client old)
              ("predictions/" ++ ToString E (p_id old) ++ "/result")
              no_options s) as [o s1] eqn:Hfetch.
  destruct (fetch_loop_framed E _ _ _ fuel 0%nat s _ s1 Hfetch)
    as (Hheap & Hnext & _).
  destruct o as [r | e1 | |];
    try (unfold bind in Hrun; rewrite Hfetch in Hrun; inversion Hrun; subst;
         split; assumption).
  rewrite (bind_returns _ _ _ _ _ Hfetch) in Hrun.
  destruct (ok r) eqn:Hok; cbn [negb] in Hrun;
    [| inversion Hrun; subst; split; assumption].
  unfold json in Hrun.
  destruct (resp_json r) as [data |] eqn:Hjson;
    [| inversion Hrun; subst; split; assumption].
  rewrite bind_ret in Hrun.
  destruct (nullish data) eqn:Hdata.
  { destruct (get_prop_nullish data "data" s1 Hdata) as [e1 He1].
    rewrite (bind_throws _ _ _ _ _ He1) in Hrun.
    inversion Hrun; subst; split; assumption. }
  rewrite (get_prop_defined data "data" Hdata), bind_ret in Hrun.
  assert (Hthis : st_heap s1 !! this = Some old) by (rewrite Hheap; exact Hold).
  rewrite (bind_returns _ _ _ _ _ (read_defined _ _ _ Hthis)) in Hrun.
  destruct (nullish (prop data "data")) eqn:Hpayload.
  { destruct (new_Prediction_nullish _ (p_client old) s1 Hpayload) as [e1 He1].
    rewrite (bind_throws _ _ _ _ _ He1) in Hrun.
    inversion Hrun; subst; split; assumption. }
  destruct (reload_defined E fuel this s s1 old r data
              Hold Hfetch Hok Hjson Hdata Hpayload) as (s2 & Hre & _).
  rewrite Hrun0 in Hre. discriminate.
Qed.

Section PollingFailure.

Variable E : Env.
Variable c : WaveSpeed.
Variable this : nat.
Hypothesis url_total : forall path, exists url, env_URL E path (baseUrl c) = Some url.

(** One [reload] answered at once by a status that is neither 2xx nor
    retried. *)
Lemma reload_refused (fuel : nat) (s : State) (p : Prediction) (r : Response) :
  st_heap s !! this = Some p -> p_client p = c ->
  (forall u init, env_fetch E (st_fetches s) u init = Resolved r) ->
  ok r = false -> resp_status r <> 429 -> resp_status r < 500 ->
  exists s1,
    reload E (S fuel) this s
    = (Throw (Error ("Failed to reload prediction: "
                     ++ show_Z E (resp_status r) ++ " " ++ resp_text r)), s1)
    /\ st_fetches s1 = S (st_fetches s)
    /\ rhythm (st_trace s1) = (rhythm (st_trace s) ++ [Poll])%list
    /\ st_heap s1 = st_heap s.
Proof.
  intros Hp Hc Hans Hok H429 H500.
  destruct (url_total (strip_slash ("predictions/" ++ ToString E (p_id p) ++ "/result")))
    as [url Hurl].
  pose proof (round_returns E c _ no_options url Hurl fuel 0%nat s r
                (Hans _ _)) as Hrun.
  rewrite (shouldRetry_below_500 no_options r H429 H500) in Hrun.
  rewrite orb_true_r in Hrun. specialize (Hrun eq_refl).
  rewrite <- Hc in Hrun at 1.
  eexists. split.
  - unfold reload.
    rewrite (bind_returns _ _ _ _ _ (read_defined _ _ _ Hp)).
    unfold fetchWithTimeout. rewrite (bind_returns _ _ _ _ _ Hrun), Hok.
    reflexivity.
  - cbn [st_fetches st_trace st_heap]. rewrite rhythm_app.
    repeat split; reflexivity.
Qed.

Lemma checkStatus_fails (fuel k : nat) :
  forall (polls : nat) (s : State) (p : Prediction) (answer : nat -> Response),
    st_heap s !! this = Some p -> p_client p = c -> (k < polls)%nat ->
    (forall i u init, (i <= k)%nat ->
       env_fetch E (st_fetches s + i) u init = Resolved (answer i)) ->
    (forall i, (i < k)%nat -> status_update (answer i) false) ->
    ok (answer k) = false -> resp_status (answer k) <> 429 ->
    resp_status (answer k) < 500 ->
    exists s',
      checkStatus E polls (S fuel) this s
      = (Throw (Error ("Failed to reload prediction: "
                       ++ show_Z E (resp_status (answer k)) ++ " "
                       ++ resp_text (answer k))), s')
      /\ rhythm (st_trace s')
         = (rhythm (st_trace s) ++ polling (pollInterval c * 1000) k)%list
      /\ st_fetches s' = (st_fetches s + k + 1)%nat.
Proof.
  induction k as [| k IH];
    intros polls s p answer Hp Hc Hpolls Hans Hrun Hok H429 H500;
    (destruct polls as [| polls]; [lia |]); rewrite checkStatus_S;
    assert (Hfirst : forall u init,
               env_fetch E (st_fetches s) u init = Resolved (answer 0%nat))
      by (intros u init; rewrite <- (Hans 0%nat u init) by lia;
          rewrite Nat.add_0_r; reflexivity).
  - destruct (reload_refused fuel s p (answer 0%nat) Hp Hc Hfirst Hok H429 H500)
      as (s1 & Hre & Hf & Hrh & _).
    exists s1. rewrite (bind_throws _ _ _ _ _ Hre).
    split; [reflexivity |]. split; [exact Hrh | lia].
  - assert (Hgo0 : status_update (answer 0%nat) false) by (apply Hrun; lia).
    destruct (reload_once E c this url_total fuel s p (answer 0%nat) false
                Hp Hc Hfirst Hgo0)
      as (s1 & p1 & Hre & Hf & Hrh & Hp1 & Hc1 & Hgo).
    rewrite (bind_returns _ _ _ _ _ Hre).
    rewrite (bind_returns _ _ _ _ _ (read_defined _ _ _ Hp1)), Hgo.
    rewrite (bind_returns _ _ _ _ _ (read_defined _ _ _ Hp1)), Hc1.
    unfold bind at 1, emit.
    match goal with
    | |- context [checkStatus E polls (S fuel) this ?st] => set (s2 := st)
    end.
    assert (Hans' : forall i u init, (i <= k)%nat ->
               env_fetch E (st_fetches s2 + i) u init = Resolved (answer (S i))).
    { intros i u init Hi. cbn [s2 st_fetches]. rewrite Hf.
      rewrite <- (Hans (S i) u init) by lia. f_equal. lia. }
    assert (Hrun' : forall i, (i < k)%nat -> status_update (answer (S i)) false)
      by (intros i Hi; apply Hrun; lia).
    destruct (IH polls s2 p1 (fun i => answer (S i)) Hp1 Hc1 ltac:(lia)
                Hans' Hrun' Hok H429 H500) as (s' & Hck & Hrh' & Hf').
    exists s'. split; [exact Hck |]. split.
    + rewrite Hrh'. cbn [s2 st_trace]. rewrite rhythm_app, Hrh.
      cbn [rhythm polling]. rewrite <- !app_assoc. reflexivity.
    + rewrite Hf'. cbn [s2 st_fetches]. lia.
Qed.

End PollingFailure.

(** X14: a failing poll ends [wait].  When the service reports the job
    as running [k] times and then answers with a status that is neither
    2xx nor retried (a 404, say), [wait] throws the reload error of that
    answer after [k + 1] polls and [k] sleeps: it does not sleep or
    poll again after the failure. *)
Theorem wait_stops_at_failed_poll (E : Env) (c : WaveSpeed)
    (this polls fuel k : nat) (s : State) (p : Prediction)
    (answer : nat -> Response) :
  (forall path, exists url, env_URL E path (baseUrl c) = Some url) ->
  st_heap s !! this = Some p -> p_client p = c ->
  terminal (p_status p) = false ->
  (forall i u init, (i <= k)%nat ->
     env_fetch E (st_fetches s + i) u init = Resolved (answer i)) ->
  (forall i, (i < k)%nat -> status_update (answer i) false) ->
  ok (answer k) = false -> resp_status (answer k) <> 429 ->
  resp_status (answer k) < 500 ->
  (k < polls)%nat -> (1 <= fuel)%nat ->
  exists s',
    wait E polls fuel this s
    = (Throw (Error ("Failed to reload prediction: "
                     ++ show_Z E (resp_status (answer k)) ++ " "
                     ++ resp_text (answer k))), s')
    /\ rhythm (st_trace s')
       = (rhythm (st_trace s) ++ polling (pollInterval c * 1000) k)%list
    /\ st_fetches s' = (st_fetches s + k + 1)%nat.
Proof.
  intros Hurl Hp Hc Hrunning Hans Hrun Hok H429 H500 Hpolls Hfuel.
  destruct fuel as [| fuel]; [lia |].
  unfold wait. rewrite (bind_returns _ _ _ _ _ (read_defined _ _ _ Hp)), Hrunning.
  exact (checkStatus_fails E c this Hurl fuel k polls s p answer
           Hp Hc Hpolls Hans Hrun Hok H429 H500).
Qed.

(** ** Reloading through a server error *)

(** X15: [reload] sends no method, which counts as GET, so a 5xx answer
    to a poll is retried inside the transport call: when the service
    answers 5xx and then sends a status update, [reload] succeeds with
    2 calls of [fetch] and the record holds the update. *)
Theorem reload_rides_out_server_error (E : Env) (c : WaveSpeed)
    (this fuel : nat) (s : State) (p : Prediction) (r1 r2 : Response)
    (done : bool) :
  (forall path, exists url, env_URL E path (baseUrl c) = Some url) ->
  st_heap s !! this = Some p -> p_client p = c ->
  (forall u init, env_fetch E (st_fetches s) u init = Resolved r1) ->
  500 <= resp_status r1 ->
  (forall u init, env_fetch E (S (st_fetches s)) u init = Resolved r2) ->
  status_update r2 done ->
  exists s' p',
    reload E (S (S fuel)) this s = (Ret this, s')
    /\ st_fetches s' = (st_fetches s + 2)%nat
    /\ st_heap s' !! this = Some p'
    /\ terminal (p_status p') = done.
Proof.
  intros Hurl Hp Hc H1 Hs1 H2 (Hok & data & Hjson & Hdata & Hpayload & Hdone).
  destruct (Hurl (strip_slash ("predictions/" ++ ToString E (p_id p) ++ "/result")))
    as [url Hu].
  destruct (round_retries E c _ no_options url Hu (S fuel) 0%nat s r1 (H1 _ _))
    as (s1 & Hstep & Hf1 & _ & Hh1 & Hn1).
  { rewrite (server_error_not_ok r1 Hs1). unfold shouldRetry.
    replace (500 <=? resp_status r1) with true by (symmetry; apply Z.leb_le; lia).
    rewrite orb_true_r. reflexivity. }
  pose proof (round_returns E c _ no_options url Hu fuel 1%nat s1 r2) as Hret.
  rewrite Hf1, Hok in Hret. specialize (Hret (H2 _ _) eq_refl).
  rewrite <- Hstep in Hret. rewrite <- Hc in Hret at 1.
  destruct (reload_defined E (S (S fuel)) this s _ p r2 data Hp Hret Hok Hjson
              Hdata Hpayload) as (s' & Hre & Hsnap & _ & _ & _ & Hf).
  eexists s', _. split; [exact Hre |]. split; [| split; [exact Hsnap | exact Hdone]].
  rewrite Hf. cbn [st_fetches]. lia.
Qed.

(** ** Submitting and waiting *)

(** X16: when the submission is answered with a job that is already
    terminal, [run] returns the new record without polling: no call of
    [fetch] and no sleep follows the one transport call of [create]. *)
Theorem run_does_not_poll_finished_job (E : Env) (polls fuel : nat)
    (c : WaveSpeed) (modelId : string) (input : JsVal)
    (options : option RequestOptions) (s s1 : State) (r : Response)
    (data : JsVal) (q : Q) :
  fetchWithTimeout E fuel c (create_url modelId options)
    (create_options input options) s = (Ret r, s1) ->
  ok r = true ->
  resp_json r = Some data ->
  prop data "code" = JNum q -> (q == 200)%Q ->
  nullish (prop data "data") = false ->
  terminal (prop (prop data "data") "status") = true ->
  exists s2,
    run E polls fuel c modelId input options s = (Ret (st_next s), s2)
    /\ create E fuel c modelId input options s = (Ret (st_next s), s2)
    /\ st_trace s2 = st_trace s1 /\ st_fetches s2 = st_fetches s1.
Proof.
  intros Hfetch Hok Hjson Hcode Hq Hpayload Hterm.
  pose proof (create_defined E fuel c modelId input options s s1 r data q
                Hfetch Hok Hjson Hcode Hq Hpayload) as Hrun.
  cbv zeta in Hrun. eexists. split; [| split; [exact Hrun | split; reflexivity]].
  unfold run. rewrite (bind_returns _ _ _ _ _ Hrun).
  unfold wait.
  erewrite bind_returns
    by (apply read_defined; cbn [st_heap]; apply lookup_insert_eq).
  cbn [p_status]. rewrite Hterm. reflexivity.
Qed.

(** ** Uploading *)

(** X17: when the transport call of [upload] returns a 2xx response
    whose JSON body has a [data] object, [upload] returns its
    [download_url]; unlike [create], it does not look at the [code] of
    the envelope. *)
Theorem upload_returns_download_url (E : Env) (fuel : nat) (c : WaveSpeed)
    (file : list Byte.byte) (options : option RequestOptions) (s s1 : State)
    (r : Response) (resp : JsVal) :
  fetchWithTimeout E fuel c "media/upload/binary" (upload_options file options) s
  = (Ret r, s1) ->
  ok r = true ->
  resp_json r = Some resp ->
  nullish resp = false ->
  nullish (prop resp "data") = false ->
  upload E fuel c file options s
  = (Ret (prop (prop resp "data") "download_url"), s1).
Proof.
  intros Hfetch Hok Hjson Hresp Hdata. unfold upload.
  rewrite (bind_returns _ _ _ _ _ Hfetch), Hok. cbn [negb].
  unfold json. rewrite Hjson, bind_ret.
  rewrite (get_prop_defined resp "data" Hresp), bind_ret.
  rewrite (get_prop_defined _ "download_url" Hdata). reflexivity.
Qed.

(** X18: [upload] posts, so only a 429 is retried: when the caller's
    options leave the method alone and the first answer is neither 2xx
    nor 429, [upload] throws the upload error made of the status and
    the body text after exactly one call of [fetch]. *)
Theorem upload_fails_without_retry (E : Env) (fuel : nat)
    (c : WaveSpeed) (url : string) (file : list Byte.byte)
    (options : option RequestOptions) (s : State) (r : Response) :
  env_URL E "media/upload/binary" (baseUrl c) = Some url ->
  effective_method (upload_options file options) = "POST" ->
  env_fetch E (st_fetches s) url (fetch_init c (upload_options file options))
  = Resolved r ->
  ok r = false -> resp_status r <> 429 ->
  exists s',
    upload E (S fuel) c file options s
    = (Throw (Error ("Failed to upload file: "
                     ++ show_Z E (resp_status r) ++ " " ++ resp_text r)), s')
    /\ st_fetches s' = S (st_fetches s)
    /\ sleeps (st_trace s') = sleeps (st_trace s).
Proof.
  intros Hurl Hpost Hr Hok Hs.
  assert (Hm : effective_method (upload_options file options) <> "GET")
    by (rewrite Hpost; discriminate).
  pose proof (post_not_retried E c "media/upload/binary" url _ fuel s r
                Hurl Hm Hr Hs) as Hrun.
  eexists. split.
  - unfold upload. rewrite (bind_returns _ _ _ _ _ Hrun), Hok. reflexivity.
  - cbn [st_fetches st_trace]. rewrite sleeps_app. simpl.
    rewrite app_nil_r. split; reflexivity.
Qed.

(** ** Building a client *)

Lemma str_or_nonempty (k b : string) : k <> "" -> str_or (Some k) b = k.
Proof.
  intros Hk. unfold str_or. apply String.eqb_neq in Hk. rewrite Hk. reflexivity.
Qed.

Lemma num_or_nonzero (q b : Q) : ~ (q == 0)%Q -> num_or (Some q) b = q.
Proof.
  intros Hq. unfold num_or. destruct (Qeq_bool q 0) eqn:Hz; [| reflexivity].
  apply Qeq_bool_iff in Hz. contradiction.
Qed.

(** X19: the credential is the argument when it is a non-empty string,
    whatever the environment holds; otherwise (no argument, or the
    empty string) it is the non-empty value of [WAVESPEED_API_KEY]; and
    an empty-string argument without that variable is refused like a
    missing one. *)
Theorem credential_resolution (E : Env) (options : ClientOptions) (s : State) :
  (forall penv k, k <> "" ->
     exists cl, constructor E penv (Some k) options s = (Ret cl, s)
                /\ apiKey cl = k)
  /\ (forall vars key v,
        key = None \/ key = Some "" ->
        vars !! "WAVESPEED_API_KEY" = Some v -> v <> "" ->
        exists cl, constructor E (Some vars) key options s = (Ret cl, s)
                   /\ apiKey cl = v)
  /\ (forall penv,
        (forall vars, penv = Some vars -> vars !! "WAVESPEED_API_KEY" = None) ->
        exists e, constructor E penv (Some "") options s = (Throw e, s)).
Proof.
  split; [| split].
  - intros penv k Hk. unfold constructor. rewrite (str_or_nonempty k _ Hk).
    apply String.eqb_neq in Hk. rewrite Hk. eexists. split; reflexivity.
  - intros vars key v Hkey Hv Hne. unfold constructor, getEnvVar. rewrite Hv.
    apply String.eqb_neq in Hne.
    destruct Hkey as [-> | ->]; simpl; rewrite ?Hne; simpl; rewrite ?Hne;
      eexists; split; reflexivity.
  - intros penv Hno. unfold constructor, getEnvVar.
    destruct penv as [vars |]; [rewrite (Hno vars eq_refl) |];
      eexists; reflexivity.
Qed.

(** X20: settings that are falsy cannot be chosen: a [pollInterval] or
    [timeout] of 0 and an empty [baseUrl] in the options build the same
    client as options that leave them out (the environment or the
    defaults decide). *)
Theorem falsy_settings_are_ignored (E : Env) (penv : option (gmap string string))
    (key : option string) (q1 q2 : Q) (s : State) :
  (q1 == 0)%Q -> (q2 == 0)%Q ->
  constructor E penv key
    {| co_baseUrl := Some ""; co_pollInterval := Some q1; co_timeout := Some q2 |} s
  = constructor E penv key
      {| co_baseUrl := None; co_pollInterval := None; co_timeout := None |} s.
Proof.
  intros H1 H2. unfold constructor, num_or. cbn [co_baseUrl co_pollInterval co_timeout].
  apply Qeq_bool_iff in H1, H2. rewrite H1, H2. reflexivity.
Qed.

(** X21: settings given in the options and not falsy are the settings
    of the client, whatever the environment holds. *)
Theorem explicit_settings_win (E : Env) (penv : option (gmap string string))
    (k u : string) (q1 q2 : Q) (s : State) :
  k <> "" -> u <> "" -> ~ (q1 == 0)%Q -> ~ (q2 == 0)%Q ->
  constructor E penv (Some k)
    {| co_baseUrl := Some u; co_pollInterval := Some q1; co_timeout := Some q2 |} s
  = (Ret {| apiKey := k; baseUrl := u; pollInterval := q1; timeout := q2 |}, s).
Proof.
  intros Hk Hu H1 H2. unfold constructor.
  cbn [co_baseUrl co_pollInterval co_timeout].
  rewrite (str_or_nonempty k _ Hk), (str_or_nonempty u _ Hu).
  rewrite (num_or_nonzero q1 _ H1), (num_or_nonzero q2 _ H2).
  apply String.eqb_neq in Hk. rewrite Hk. reflexivity.
Qed.

(** ** What [create] sends *)

Lemma silent_ret {A} (a : A) : silent (ret a).
Proof. intros s o s' H. inversion H. reflexivity. Qed.

Lemma silent_throw {A} (e : JsError) : silent (throw (A := A) e).
Proof. intros s o s' H. inversion H. reflexivity. Qed.

Lemma silent_bind {A B} (m : M A) (k : A -> M B) :
  silent m -> (forall a, silent (k a)) -> silent (bind m k).
Proof.
  intros Hm Hk s o s' H. unfold bind in H.
  destruct (m s) as [[a | e | |] s1] eqn:Hms;
    try (inversion H; subst; eapply Hm; exact Hms).
  rewrite (Hk a _ _ _ H). eapply Hm. exact Hms.
Qed.

Lemma silent_get_prop (v : JsVal) (k : string) : silent (get_prop v k).
Proof. destruct v; simpl; (apply silent_ret || apply silent_throw). Qed.

Lemma silent_json (r : Response) : silent (json r).
Proof.
  unfold json. destruct (resp_json r); [apply silent_ret | apply silent_throw].
Qed.

Lemma silent_new_Prediction (data : JsVal) (c : WaveSpeed) :
  silent (new_Prediction data c).
Proof.
  unfold new_Prediction.
  repeat (apply silent_bind; [apply silent_get_prop | intro]).
  intros s o s' H. inversion H. reflexivity.
Qed.

(** X10: every call of [fetch] made by [create] carries the request
    built from [create]'s options; when the caller passes no options
    this is a POST whose body is the JSON text of the input and whose
    headers are the bearer authorization and
    [content-type: application/json]. *)
Theorem create_posts_json (E : Env) (fuel : nat) (c : WaveSpeed)
    (modelId : string) (input : JsVal) (s s' : State) (o : Outcome nat) :
  create E fuel c modelId input None s = (o, s') ->
  exists tr,
    st_trace s' = (st_trace s ++ tr)%list
    /\ Forall (fun ev => forall u i, ev = EvFetch u i ->
         fi_method i = Some "POST"
         /\ fi_body i = Some (BodyJson input)
         /\ fi_headers i !! "Authorization" = Some ("Bearer " ++ apiKey c)
         /\ fi_headers i !! "content-type" = Some "application/json"
         /\ size (fi_headers i) = 2%nat) tr.
Proof.
  intros Hrun. unfold create in Hrun.
  destruct (fetchWithTimeout E fuel c (create_url modelId None)
              (create_options input None) s) as [o1 s1] eqn:Hfetch.
  destruct (fetch_loop_framed E _ _ _ fuel 0%nat s _ s1 Hfetch)
    as (_ & _ & tr & Htr & Hall).
  assert (Hsame : st_trace s' = st_trace s1).
  { destruct o1 as [r | e | |];
      try (unfold bind in Hrun; rewrite Hfetch in Hrun; inversion Hrun;
           reflexivity).
    rewrite (bind_returns _ _ _ _ _ Hfetch) in Hrun.
    revert Hrun. generalize s1 o s'.
    change (silent
      (if negb (ok r)
       then let* errorText := text r in
            throw (Error ("Failed to create prediction: "
                          ++ show_Z E (resp_status r) ++ " " ++ errorText))
       else let* data := json r in
            let* code := get_prop data "code" in
            if num_neq code 200
            then throw (Error ("Failed to create prediction: "
                               ++ ToString E code ++ " " ++ ToString E data))
            else let* payload := get_prop data "data" in
                 new_Prediction payload c)).
    destruct (negb (ok r)).
    - apply silent_bind; [apply silent_ret | intro; apply silent_throw].
    - apply silent_bind; [apply silent_json | intro data].
      apply silent_bind; [apply silent_get_prop | intro code].
      destruct (num_neq code 200); [apply silent_throw |].
      apply silent_bind; [apply silent_get_prop | intro].
      apply silent_new_Prediction. }
  exists tr. split; [rewrite Hsame; exact Htr |].
  eapply Forall_impl; [exact Hall |].
  intros ev Hev u i Heq. rewrite (Hev u i Heq).
  unfold fetch_init, compose_headers, create_options. cbn.
  repeat split; reflexivity.
Qed.

(** ** Rate limiting *)

(** X22: a 429 is retried whatever the method, also for the POST of
    [create] and [upload]: when the first answer is a 429, the budget
    is positive and the second answer is one that is not retried, the
    call makes 2 attempts, sleeps once, and returns the second
    response. *)
Theorem rate_limit_is_recovered (E : Env) (c : WaveSpeed)
    (path url : string) (options : RequestOptions) (fuel : nat) (s : State)
    (r1 r2 : Response) :
  env_URL E (strip_slash path) (baseUrl c) = Some url ->
  env_fetch E (st_fetches s) url (fetch_init c options) = Resolved r1 ->
  resp_status r1 = 429 ->
  (0 < effective_maxRetries options)%Q ->
  env_fetch E (S (st_fetches s)) url (fetch_init c options) = Resolved r2 ->
  ok r2 || negb (shouldRetry options r2) = true ->
  exists s',
    fetchWithTimeout E (S (S fuel)) c path options s = (Ret r2, s')
    /\ st_fetches s' = (st_fetches s + 2)%nat
    /\ attempts (st_trace s') = (attempts (st_trace s) + 2)%nat.
Proof.
  intros Hurl H1 H429 Hm H2 Hstop. unfold fetchWithTimeout.
  destruct (rate_limited_retry options r1 H429) as [Hok Hre].
  destruct (round_retries E c path options url Hurl (S fuel) 0%nat s r1 H1)
    as (s1 & Hstep & Hf1 & Ha1 & _).
  { rewrite Hok, Hre. simpl.
    destruct (Qle_bool (effective_maxRetries options) (of_nat 0)) eqn:Hle;
      [| reflexivity].
    apply Qle_bool_iff in Hle. change (of_nat 0) with 0%Q in Hle. lra. }
  rewrite Hstep. eexists. split.
  - apply (round_returns E c path options url Hurl);
      [rewrite Hf1; exact H2 | rewrite Hstop; reflexivity].
  - cbn [st_fetches st_trace]. rewrite attempts_app, Ha1, Hf1. simpl.
    split; lia.
Qed.

(** * Worked instances of the further properties *)

Lemma attempts_never_exceed_budget_witness :
  exists o s',
    fetchWithTimeout network_flaky 4 sample_client "/test-path" no_options
      initial_state = (o, s')
    /\ settled o
    /\ (st_fetches s' <= st_fetches initial_state + 3 + 1)%nat
    /\ (attempts (st_trace s') <= attempts (st_trace initial_state) + 3 + 1)%nat.
Proof.
  apply (attempts_never_exceed_budget network_flaky sample_client "/test-path"
           no_options 3 4 initial_state).
  - vm_compute. discriminate.
  - lia.
Defined.

Lemma timers_always_cleared_witness :
  exists n,
    timer_events (st_trace (snd (fetchWithTimeout always_429 4 sample_client
                                   "/test-path" no_options initial_state)))
    = (timer_events (st_trace initial_state)
       ++ armed_and_cleared (effective_timeout sample_client no_options) n)%list
    /\ (st_fetches (snd (fetchWithTimeout always_429 4 sample_client
                           "/test-path" no_options initial_state))
        <= st_fetches initial_state + n)%nat.
Proof.
  apply (timers_always_cleared always_429 sample_client "/test-path" no_options
           4 initial_state _
           (fst (fetchWithTimeout always_429 4 sample_client "/test-path"
                   no_options initial_state))).
  apply surjective_pairing.
Defined.

Lemma transient_errors_exhaust_budget_witness :
  exists e s',
    fetchWithTimeout (network_down (TypeError "Failed to fetch")) 4
      sample_client "/test-path" no_options initial_state = (Throw e, s')
    /\ env_fetch (network_down (TypeError "Failed to fetch"))
         (st_fetches initial_state + 3)
         "https://api.wavespeed.ai/api/v3/test-path"
         (fetch_init sample_client no_options) = Rejected e
    /\ st_fetches s' = (st_fetches initial_state + 3 + 1)%nat
    /\ attempts (st_trace s') = (attempts (st_trace initial_state) + 3 + 1)%nat
    /\ length (sleeps (st_trace s'))
       = (length (sleeps (st_trace initial_state)) + 3)%nat.
Proof.
  apply (transient_errors_exhaust_budget (network_down (TypeError "Failed to fetch"))
           sample_client "/test-path" "https://api.wavespeed.ai/api/v3/test-path"
           no_options 3 4 initial_state).
  - reflexivity.
  - intros i. exists (TypeError "Failed to fetch"). split; reflexivity.
  - reflexivity.
  - lia.
Defined.

Lemma other_errors_thrown_at_once_witness :
  fst (fetchWithTimeout (network_down security_error) 1 sample_client
         "/test-path" no_options initial_state)
  = Throw security_error.
Proof.
  rewrite (other_errors_thrown_at_once (network_down security_error)
             sample_client "/test-path"
             "https://api.wavespeed.ai/api/v3/test-path" no_options 0
             initial_state security_error);
    reflexivity.
Defined.

Lemma invalid_url_is_retried_without_fetching_witness :
  exists e s',
    fetchWithTimeout no_url 4 sample_client "::" no_options initial_state
    = (Throw e, s')
    /\ err_name e = "TypeError"
    /\ st_fetches s' = st_fetches initial_state
    /\ attempts (st_trace s') = attempts (st_trace initial_state)
    /\ length (sleeps (st_trace s'))
       = (length (sleeps (st_trace initial_state)) + 3)%nat.
Proof.
  apply (invalid_url_is_retried_without_fetching no_url sample_client "::"
           no_options 3 4 initial_state).
  - reflexivity.
  - reflexivity.
  - lia.
Defined.

Lemma transient_error_is_recovered_witness :
  exists s',
    fetchWithTimeout network_flaky 2 sample_client "/test-path" no_options
      initial_state
    = (Ret (json_response 200 (obj [("success", JBool true)])), s')
    /\ st_fetches s' = (st_fetches initial_state + 2)%nat
    /\ sleeps (st_trace s')
       = (sleeps (st_trace initial_state)
          ++ [backoffTime 1 1000 (env_random network_flaky 0)])%list.
Proof.
  apply (transient_error_is_recovered network_flaky sample_client "/test-path"
           "https://api.wavespeed.ai/api/v3/test-path" no_options 0
           initial_state (TypeError "Failed to fetch")).
  - reflexivity.
  - reflexivity.
  - reflexivity.
  - vm_compute. reflexivity.
  - reflexivity.
  - reflexivity.
Defined.

Lemma other_statuses_returned_at_once_witness :
  fst (fetchWithTimeout job_unknown 1 sample_client "/test-path" no_options
         initial_state)
  = Ret (text_response 404 "Prediction not found").
Proof.
  rewrite (other_statuses_returned_at_once job_unknown sample_client
             "/test-path" "https://api.wavespeed.ai/api/v3/test-path"
             no_options 0 initial_state
             (text_response 404 "Prediction not found"));
    first [reflexivity | discriminate | simpl; lia].
Defined.

Lemma leading_slash_is_ignored_witness :
  fetchWithTimeout always_429 4 sample_client "/test-path" no_options initial_state
  = fetchWithTimeout always_429 4 sample_client "test-path" no_options initial_state.
Proof.
  apply (leading_slash_is_ignored always_429 sample_client "test-path").
  reflexivity.
Defined.

Lemma backoff_strictly_grows_witness :
  exists delay delay' : Q,
    double_backoffTime 1 1000 (1 - 2 ^ (-53)) = Some delay
    /\ double_backoffTime (1 + 1) 1000 0 = Some delay'
    /\ (delay < delay')%Q.
Proof.
  apply (backoff_strictly_grows 1 (1 - 2 ^ (-53)) 0).
  - lia.
  - vm_compute. discriminate.
  - vm_compute. reflexivity.
  - discriminate.
  - reflexivity.
Defined.

Lemma create_returns_fresh_record_witness :
  exists s2 record,
    create job_done 1 sample_client "wavespeed-ai/flux-dev"
      (obj [("prompt", JStr "a")]) None initial_state = (Ret 0%nat, s2)
    /\ st_heap s2 !! 0%nat = Some record
    /\ p_client record = sample_client
    /\ p_id record = JStr "pred-123"
    /\ p_status record = JStr "completed"
    /\ p_outputs record = JArr [JStr "url1"].
Proof.
  destruct (create_returns_fresh_record job_done 1 sample_client
              "wavespeed-ai/flux-dev" (obj [("prompt", JStr "a")]) None
              initial_state
              (snd (fetchWithTimeout job_done 1 sample_client
                      "wavespeed-ai/flux-dev"
                      (create_options (obj [("prompt", JStr "a")]) None)
                      initial_state))
              (json_response 200 (job_envelope "completed" [JStr "url1"]))
              (job_envelope "completed" [JStr "url1"]) 200)
    as (s2 & record & Hrun & Hrec & Hc & Hid & Hst & Hout & _).
  - vm_compute. reflexivity.
  - reflexivity.
  - reflexivity.
  - vm_compute. reflexivity.
  - reflexivity.
  - vm_compute. reflexivity.
  - exists s2, record. split; [exact Hrun |]. split; [exact Hrec |].
    split; [exact Hc |].
    split; [rewrite Hid; vm_compute; reflexivity |].
    split; [rewrite Hst; vm_compute; reflexivity |].
    rewrite Hout. vm_compute. reflexivity.
Defined.

Lemma create_fails_without_retry_witness :
  exists s',
    create unavailable_once 1 sample_client "wavespeed-ai/flux-dev"
      (obj [("prompt", JStr "a")]) None initial_state
    = (Throw (Error "Failed to create prediction: 503 Service unavailable"), s')
    /\ st_fetches s' = 1%nat
    /\ sleeps (st_trace s') = []
    /\ st_heap s' = ∅.
Proof.
  apply (create_fails_without_retry unavailable_once 0 sample_client
           "wavespeed-ai/flux-dev"
           "https://api.wavespeed.ai/api/v3/wavespeed-ai/flux-dev"
           (obj [("prompt", JStr "a")]) None initial_state
           (text_response 503 "Service unavailable"));
    first [reflexivity | discriminate].
Defined.

Lemma failed_reload_keeps_record_witness :
  st_heap (snd (reload job_unknown 1 0 (state_with (sample_job "processing" JUndefined))))
  = st_heap (state_with (sample_job "processing" JUndefined))
  /\ st_next (snd (reload job_unknown 1 0 (state_with (sample_job "processing" JUndefined))))
     = st_next (state_with (sample_job "processing" JUndefined)).
Proof.
  apply (failed_reload_keeps_record job_unknown 1 0 _ _
           (Error "Failed to reload prediction: 404 Prediction not found")).
  vm_compute. reflexivity.
Defined.

Lemma wait_stops_at_failed_poll_witness :
  exists s',
    wait job_lost_at_second_poll 5 1 0
      (state_with (sample_job "processing" JUndefined))
    = (Throw (Error "Failed to reload prediction: 404 Prediction not found"), s')
    /\ rhythm (st_trace s') = [Poll; Nap (pollInterval sample_client * 1000); Poll]
    /\ st_fetches s' = 2%nat.
Proof.
  apply (wait_stops_at_failed_poll job_lost_at_second_poll sample_client
           0 5 1 1 (state_with (sample_job "processing" JUndefined))
           (sample_job "processing" JUndefined) lost_answer).
  - intros path. eexists. reflexivity.
  - reflexivity.
  - reflexivity.
  - reflexivity.
  - intros i u init _. reflexivity.
  - intros i Hi. assert (i = 0%nat) by lia. subst i.
    split; [reflexivity |]. eexists. split; [reflexivity |].
    repeat split; vm_compute; reflexivity.
  - reflexivity.
  - discriminate.
  - reflexivity.
  - lia.
  - lia.
Defined.

Lemma reload_rides_out_server_error_witness :
  exists s' p',
    reload job_done_after_outage 2 0
      (state_with (sample_job "processing" JUndefined)) = (Ret 0%nat, s')
    /\ st_fetches s' = 2%nat
    /\ st_heap s' !! 0%nat = Some p'
    /\ terminal (p_status p') = true.
Proof.
  apply (reload_rides_out_server_error job_done_after_outage sample_client
           0 0 (state_with (sample_job "processing" JUndefined))
           (sample_job "processing" JUndefined)
           (text_response 503 "Service unavailable")
           (json_response 200 (job_envelope "completed" [JStr "url1"])) true).
  - intros path. eexists. reflexivity.
  - reflexivity.
  - reflexivity.
  - intros u init. reflexivity.
  - simpl. lia.
  - intros u init. reflexivity.
  - split; [reflexivity |]. eexists. split; [reflexivity |].
    repeat split; vm_compute; reflexivity.
Defined.

Lemma run_does_not_poll_finished_job_witness :
  exists s2,
    run job_done 0 1 sample_client "wavespeed-ai/flux-dev"
      (obj [("prompt", JStr "a")]) None initial_state = (Ret 0%nat, s2)
    /\ st_fetches s2 = 1%nat
    /\ sleeps (st_trace s2) = [].
Proof.
  destruct (run_does_not_poll_finished_job job_done 0 1 sample_client
              "wavespeed-ai/flux-dev" (obj [("prompt", JStr "a")]) None
              initial_state
              (snd (fetchWithTimeout job_done 1 sample_client
                      "wavespeed-ai/flux-dev"
                      (create_options (obj [("prompt", JStr "a")]) None)
                      initial_state))
              (json_response 200 (job_envelope "completed" [JStr "url1"]))
              (job_envelope "completed" [JStr "url1"]) 200)
    as (s2 & Hrun & _ & Htr & Hf).
  - vm_compute. reflexivity.
  - reflexivity.
  - reflexivity.
  - vm_compute. reflexivity.
  - reflexivity.
  - vm_compute. reflexivity.
  - vm_compute. reflexivity.
  - exists s2. split; [exact Hrun |]. rewrite Hf, Htr.
    split; vm_compute; reflexivity.
Defined.

Lemma upload_returns_download_url_witness :
  fst (upload upload_accepted 1 sample_client [] None initial_state)
  = Ret (JStr "https://cdn.example.com/f.png").
Proof.
  pose (resp := obj [("code", JNum 200); ("message", JStr "success");
                     ("data", obj [("type", JStr "image/png");
                                   ("download_url", JStr "https://cdn.example.com/f.png");
                                   ("filename", JStr "f.png"); ("size", JNum 3)])]).
  rewrite (upload_returns_download_url upload_accepted 1 sample_client [] None
             initial_state
             (snd (fetchWithTimeout upload_accepted 1 sample_client
                     "media/upload/binary" (upload_options [] None)
                     initial_state))
             (json_response 200 resp) resp).
  - vm_compute. reflexivity.
  - vm_compute. reflexivity.
  - reflexivity.
  - reflexivity.
  - reflexivity.
  - vm_compute. reflexivity.
Defined.

Lemma upload_fails_without_retry_witness :
  exists s',
    upload unavailable_once 1 sample_client [] None initial_state
    = (Throw (Error "Failed to upload file: 503 Service unavailable"), s')
    /\ st_fetches s' = 1%nat
    /\ sleeps (st_trace s') = [].
Proof.
  apply (upload_fails_without_retry unavailable_once 0 sample_client
           "https://api.wavespeed.ai/api/v3/media/upload/binary" [] None
           initial_state (text_response 503 "Service unavailable"));
    first [reflexivity | discriminate].
Defined.

Lemma credential_resolution_witness :
  (exists cl,
     constructor always_429 (Some {[ "WAVESPEED_API_KEY" := "env-api-key" ]})
       (Some "test-api-key")
       {| co_baseUrl := None; co_pollInterval := None; co_timeout := None |}
       initial_state = (Ret cl, initial_state)
     /\ apiKey cl = "test-api-key")
  /\ (exists cl,
       constructor always_429 (Some {[ "WAVESPEED_API_KEY" := "env-api-key" ]})
         (Some "")
         {| co_baseUrl := None; co_pollInterval := None; co_timeout := None |}
         initial_state = (Ret cl, initial_state)
       /\ apiKey cl = "env-api-key")
  /\ (exists e,
       constructor always_429 None (Some "")
         {| co_baseUrl := None; co_pollInterval := None; co_timeout := None |}
         initial_state = (Throw e, initial_state)).
Proof.
  destruct (credential_resolution always_429
              {| co_baseUrl := None; co_pollInterval := None; co_timeout := None |}
              initial_state) as (Harg & Henv & Hnone).
  split; [| split].
  - apply Harg. discriminate.
  - apply Henv; [right; reflexivity | reflexivity | discriminate].
  - apply Hnone. intros vars Hvars. discriminate.
Defined.

Lemma falsy_settings_are_ignored_witness :
  constructor always_429 None (Some "test-api-key")
    {| co_baseUrl := Some ""; co_pollInterval := Some 0%Q; co_timeout := Some 0%Q |}
    initial_state
  = constructor always_429 None (Some "test-api-key")
      {| co_baseUrl := None; co_pollInterval := None; co_timeout := None |}
      initial_state.
Proof.
  apply (falsy_settings_are_ignored always_429 None (Some "test-api-key") 0 0);
    reflexivity.
Defined.

Lemma explicit_settings_win_witness :
  constructor always_429
    (Some {[ "WAVESPEED_POLL_INTERVAL" := "3" ]}) (Some "test-api-key")
    {| co_baseUrl := Some "https://custom-api.example.com";
       co_pollInterval := Some 5%Q; co_timeout := Some 90%Q |} initial_state
  = (Ret {| apiKey := "test-api-key"; baseUrl := "https://custom-api.example.com";
            pollInterval := 5%Q; timeout := 90%Q |}, initial_state).
Proof.
  apply explicit_settings_win; discriminate.
Defined.

Lemma create_posts_json_witness :
  exists tr,
    st_trace (snd (create job_done 1 sample_client "wavespeed-ai/flux-dev"
                     (obj [("prompt", JStr "a")]) None initial_state))
    = (st_trace initial_state ++ tr)%list
    /\ Forall (fun ev => forall u i, ev = EvFetch u i ->
         fi_method i = Some "POST"
         /\ fi_body i = Some (BodyJson (obj [("prompt", JStr "a")]))
         /\ fi_headers i !! "Authorization" = Some ("Bearer " ++ apiKey sample_client)
         /\ fi_headers i !! "content-type" = Some "application/json"
         /\ size (fi_headers i) = 2%nat) tr.
Proof.
  apply (create_posts_json job_done 1 sample_client "wavespeed-ai/flux-dev"
           (obj [("prompt", JStr "a")]) initial_state _
           (fst (create job_done 1 sample_client "wavespeed-ai/flux-dev"
                   (obj [("prompt", JStr "a")]) None initial_state))).
  apply surjective_pairing.
Defined.

Lemma rate_limit_is_recovered_witness :
  exists s',
    fetchWithTimeout rate_limited_once 2 sample_client "wavespeed-ai/flux-dev"
      (options_with_method "POST") initial_state
    = (Ret (json_response 200 (job_envelope "processing" [])), s')
    /\ st_fetches s' = (st_fetches initial_state + 2)%nat
    /\ attempts (st_trace s') = (attempts (st_trace initial_state) + 2)%nat.
Proof.
  apply (rate_limit_is_recovered rate_limited_once sample_client
           "wavespeed-ai/flux-dev"
           "https://api.wavespeed.ai/api/v3/wavespeed-ai/flux-dev"
           (options_with_method "POST") 0 initial_state
           (text_response 429 "Rate limit exceeded"));
    first [reflexivity | vm_compute; reflexivity].
Defined.
